(** * TikTok influencer finder: a shallow embedding of the pipeline

    The development follows [cleaned_tiktok_influencer_finder.py]:
    the HTTP adapter [TikTokAPI], the search aggregator
    [search_influencers_by_keyword], the qualification filter
    [filter_influencers] and the orchestrator [find_tiktok_influencers].

    Modelling conventions.
    - JSON values coming back from the platform are the inductive [json].
      JSON numbers are integers (the program reads counts); fractional
      numbers are outside the model.
    - Python exceptions are values of [exn]; a computation that may raise
      returns an [outcome].
    - The network, the call log and the rate-limit pauses are threaded
      through a state monad [M] over a [world].
    - [total_views / len(videos)] is Python's true division of integers:
      the binary64 float nearest to the quotient, or [OverflowError]. A
      float is kept as the rational it denotes (the sign of a zero is not
      kept); comparing it with an integer is exact, as in Python.
    - Console output ([print], the progress bar) is not modelled; the two
      [with ... as pbar:] headers of the source only open the progress
      bar. *)

From Stdlib Require Import ZArith QArith Qabs List String Ascii Bool Lia Lqa DecimalString.
Import ListNotations.

Local Open Scope string_scope.
Local Open Scope Z_scope.
Local Open Scope list_scope.

(** ** Python values and exceptions *)

#[warnings="-register-all"]
Inductive json : Type :=
| JNull
| JBool (b : bool)
| JInt (z : Z)
| JStr (s : string)
| JList (l : list json)
| JObj (o : list (string * json)).

Inductive exn : Type :=
| KeyError (k : string)
| TypeError
| ValueError
| AttributeError
| ZeroDivisionError
| OverflowError
| RecursionError
| OtherError (name : string).

(** [Diverge] marks a loop whose fuel ran out; the aggregator's loop is
    shown never to produce it. *)
Inductive outcome (A : Type) : Type :=
| Ok (a : A)
| Raise (e : exn)
| Diverge.

Arguments Ok {A} a.
Arguments Raise {A} e.
Arguments Diverge {A}.

Definition obind {A B : Type} (c : outcome A) (k : A -> outcome B) : outcome B :=
  match c with
  | Ok a => k a
  | Raise e => Raise e
  | Diverge => Diverge
  end.

Notation "'let?' x ':=' c 'in' k" := (obind c (fun x => k))
  (at level 10, x name, c at level 100, k at level 200).

(** Builtins of the Python runtime that the program calls on data of
    arbitrary shape: [int(s)] for a [str] (None stands for ValueError) and
    the text a value takes inside an f-string. *)
Class PyBuiltins : Type := {
  int_of_str : string -> option Z;
  str_of_json : json -> string
}.

Fixpoint assoc {V : Type} (k : string) (o : list (string * V)) : option V :=
  match o with
  | [] => None
  | (k', v) :: o' => if String.eqb k' k then Some v else assoc k o'
  end.

(** [bool(j)], as used by [if not users] and [if not videos]. *)
Definition py_truthy (j : json) : bool :=
  match j with
  | JNull => false
  | JBool b => b
  | JInt z => negb (z =? 0)
  | JStr s => negb (String.eqb s "")
  | JList l => match l with [] => false | _ => true end
  | JObj o => match o with [] => false | _ => true end
  end.

(** [len(j)]. *)
Definition py_len (j : json) : outcome nat :=
  match j with
  | JStr s => Ok (String.length s)
  | JList l => Ok (List.length l)
  | JObj o => Ok (List.length o)
  | _ => Raise TypeError
  end.

(** The elements [for x in j] visits: the items of a list, the characters
    of a string, the keys of a dict. *)
Definition py_iter (j : json) : outcome (list json) :=
  match j with
  | JStr s => Ok (map (fun c => JStr (String c EmptyString)) (list_ascii_of_string s))
  | JList l => Ok l
  | JObj o => Ok (map (fun kv => JStr (fst kv)) o)
  | _ => Raise TypeError
  end.

Fixpoint is_substring (p s : string) : bool :=
  if String.prefix p s then true
  else match s with
       | EmptyString => false
       | String _ s' => is_substring p s'
       end.

Definition is_str (item : string) (j : json) : bool :=
  match j with
  | JStr s => String.eqb s item
  | _ => false
  end.

(** [item in j] for a string [item]. *)
Definition py_contains (item : string) (j : json) : outcome bool :=
  match j with
  | JObj o => Ok (match assoc item o with Some _ => true | None => false end)
  | JList l => Ok (existsb (is_str item) l)
  | JStr s => Ok (is_substring item s)
  | _ => Raise TypeError
  end.

(** [j[k]] for a string key [k]. *)
Definition py_getitem (j : json) (k : string) : outcome json :=
  match j with
  | JObj o => match assoc k o with Some v => Ok v | None => Raise (KeyError k) end
  | _ => Raise TypeError
  end.

(** [j.get(k, default)]; only dicts have the method. *)
Definition py_get (j : json) (k : string) (default : json) : outcome json :=
  match j with
  | JObj o => Ok (match assoc k o with Some v => v | None => default end)
  | _ => Raise AttributeError
  end.

(** [int(j)]. *)
Definition py_int `{PyBuiltins} (j : json) : outcome Z :=
  match j with
  | JInt z => Ok z
  | JBool b => Ok (if b then 1 else 0)
  | JStr s => match int_of_str s with Some z => Ok z | None => Raise ValueError end
  | _ => Raise TypeError
  end.

(** *** True division of integers

    [a / b] on Python integers is the correctly rounded quotient: the
    binary64 number nearest to the exact [a / b], ties going to the even
    significand, with the subnormal numbers below [2^-1022]; a quotient
    that rounds to [2^1024] or beyond raises [OverflowError]. *)

(** The integer nearest to [num / den], ties to even ([den] positive). *)
Definition round_half_even (num den : Z) : Z :=
  let q := num / den in
  match 2 * (num mod den) ?= den with
  | Lt => q
  | Gt => q + 1
  | Eq => if Z.even q then q else q + 1
  end.

(** [a / b] divided by [2^e], as a fraction of integers. *)
Definition scaled (a b e : Z) : Z * Z :=
  if 0 <=? e then (a, b * 2 ^ e) else (a * 2 ^ (- e), b).

(** The exponent [e] of the unit in the last place of [a / b] (both
    positive): the quotient over [2^e] lies in [[2^52, 2^53)], unless that
    takes [e] below [-1074], the exponent of the subnormal numbers. *)
Definition binary64_exponent (a b : Z) : Z :=
  let d := Z.log2 a - Z.log2 b in
  let (n0, d0) := scaled a b (d - 52) in
  Z.max (if 2 ^ 52 * d0 <=? n0 then d - 52 else d - 53) (-1074).

(** The number [m * 2^e], in lowest terms. *)
Definition float_value (m e : Z) : Q :=
  Qred (if 0 <=? e then inject_Z (m * 2 ^ e) else Qmake m (Z.to_pos (2 ^ (- e)))).

(** The binary64 number nearest to [a / b], for positive [a] and [b];
    [None] when it is out of range. *)
Definition nearest_binary64 (a b : Z) : option Q :=
  let e := binary64_exponent a b in
  let (n, d) := scaled a b e in
  let m := round_half_even n d in
  if 2 ^ 1024 <=? m * 2 ^ e then None else Some (float_value m e).

(** [a / n] on integers. *)
Definition py_truediv (a n : Z) : outcome Q :=
  if n =? 0 then Raise ZeroDivisionError
  else if a =? 0 then Ok 0%Q
  else match nearest_binary64 (Z.abs a) (Z.abs n) with
       | Some v => Ok (if Z.sgn a * Z.sgn n <? 0 then Qopp v else v)
       | None => Raise OverflowError
       end.

(** The text of [j] inside an f-string. *)
Definition py_format `{PyBuiltins} (j : json) : string :=
  match j with
  | JStr s => s
  | _ => str_of_json j
  end.

(** ** Dictionaries keyed by hashable values

    A Python dict keeps insertion order, and assigning to a key that is
    already present replaces the value in place. [True == 1] and
    [False == 0] as keys. *)

Inductive py_key : Type :=
| KNone
| KInt (z : Z)
| KStr (s : string).

Definition key_eqb (a b : py_key) : bool :=
  match a, b with
  | KNone, KNone => true
  | KInt x, KInt y => x =? y
  | KStr x, KStr y => String.eqb x y
  | _, _ => false
  end.

(** Lists and dicts are unhashable. *)
Definition py_hash (j : json) : outcome py_key :=
  match j with
  | JNull => Ok KNone
  | JBool b => Ok (KInt (if b then 1 else 0))
  | JInt z => Ok (KInt z)
  | JStr s => Ok (KStr s)
  | _ => Raise TypeError
  end.

Definition pydict (V : Type) : Type := list (py_key * V).

Fixpoint dict_set {V : Type} (k : py_key) (v : V) (d : pydict V) : pydict V :=
  match d with
  | [] => [(k, v)]
  | (k', v') :: d' =>
      if key_eqb k' k then (k', v) :: d' else (k', v') :: dict_set k v d'
  end.

Fixpoint dict_lookup {V : Type} (k : py_key) (d : pydict V) : option V :=
  match d with
  | [] => None
  | (k', v) :: d' => if key_eqb k' k then Some v else dict_lookup k d'
  end.

(** [{keyf(x): x for x in l}], started from the dict [d]. *)
Fixpoint dict_comprehension_from {A : Type} (keyf : A -> outcome py_key)
  (l : list A) (d : pydict A) : outcome (pydict A) :=
  match l with
  | [] => Ok d
  | x :: r => let? k := keyf x in dict_comprehension_from keyf r (dict_set k x d)
  end.

Definition dict_comprehension {A : Type} (keyf : A -> outcome py_key)
  (l : list A) : outcome (pydict A) :=
  dict_comprehension_from keyf l [].

Definition dict_values {V : Type} (d : pydict V) : list V := map snd d.

(** ** The network and the state monad

    [requests.get(...)], [raise_for_status()] and [response.json()] either
    raise a [requests.RequestException] (connection failure, timeout, bad
    status, and, as [requests.JSONDecodeError], an undecodable body), or
    raise an exception of another class, which the [except] clauses of the
    adapter do not name (the [ValueError] of [response.json()] on an
    integer of more than 4300 digits, [RecursionError] on a deeply nested
    body), or hand back the decoded JSON body. *)

Record request : Type := {
  req_url : string;
  req_headers : list (string * string);
  req_params : list (string * json)
}.

(** What [requests] may raise that is not a [RequestException]. *)
Inductive uncaught : Type :=
| DecodeValueError
| DecodeRecursionError
| OtherUncaught (name : string).

Definition exn_of_uncaught (u : uncaught) : exn :=
  match u with
  | DecodeValueError => ValueError
  | DecodeRecursionError => RecursionError
  | OtherUncaught name => OtherError name
  end.

Inductive response : Type :=
| RequestException
| Body (data : json)
| Uncaught (u : uncaught).

(** The platform: each GET returns a response and moves the network to its
    next state. *)
Class Transport (Net : Type) : Type := {
  http_get : request -> Net -> response * Net
}.

(** [calls] logs the requests issued so far, oldest first; [naps] counts
    the rate-limit pauses [time.sleep(random.uniform(1.0, 2.0))]. *)
Record world (Net : Type) : Type := {
  net : Net;
  calls : list request;
  naps : nat
}.

Arguments net {Net} w.
Arguments calls {Net} w.
Arguments naps {Net} w.

Definition M (Net A : Type) : Type := world Net -> outcome A * world Net.

Definition ret {Net A : Type} (a : A) : M Net A := fun w => (Ok a, w).

Definition bind {Net A B : Type} (c : M Net A) (k : A -> M Net B) : M Net B :=
  fun w =>
    match c w with
    | (Ok a, w') => k a w'
    | (Raise e, w') => (Raise e, w')
    | (Diverge, w') => (Diverge, w')
    end.

Definition lift {Net A : Type} (c : outcome A) : M Net A := fun w => (c, w).

Definition diverge {Net A : Type} : M Net A := fun w => (Diverge, w).

Notation "x <- c ;; k" := (bind c (fun x => k))
  (at level 100, c at next level, right associativity).

Definition get {Net : Type} `{Transport Net} (r : request) : M Net response :=
  fun w =>
    let (resp, n') := http_get r (net w) in
    (Ok resp, {| net := n'; calls := calls w ++ [r]; naps := naps w |}).

Definition sleep {Net : Type} : M Net unit :=
  fun w => (Ok tt, {| net := net w; calls := calls w; naps := S (naps w) |}).

(** ** class TikTokAPI *)

Record TikTokAPI : Type := {
  base_url : string;
  headers : list (string * string)
}.

Definition user_agent : string :=
  "Mozilla/5.0 (Windows NT 10.0; Win64; x64) AppleWebKit/537.36 (KHTML, like Gecko) Chrome/103.0.0.0 Safari/537.36".

(** [TikTokAPI.__init__]; a missing or empty token gives an empty cookie. *)
Definition TikTokAPI_init (ms_token : option string) : TikTokAPI :=
  {| base_url := "https://www.tiktok.com/api";
     headers :=
       [ ("User-Agent", user_agent);
         ("Referer", "https://www.tiktok.com/");
         ("Cookie", match ms_token with
                    | Some t => if String.eqb t "" then "" else ("msToken=" ++ t)%string
                    | None => ""
                    end) ] |}.

Definition search_request (api : TikTokAPI) (keyword : string) (count offset : Z)
  : request :=
  {| req_url := (base_url api ++ "/search/user/full/")%string;
     req_headers := headers api;
     req_params :=
       [ ("aid", JStr "1988");
         ("app_name", JStr "tiktok_web");
         ("device_platform", JStr "web");
         ("keyword", JStr keyword);
         ("count", JInt count);
         ("cursor", JInt offset) ] |}.

Definition user_info_request (api : TikTokAPI) (username : string) : request :=
  {| req_url := (base_url api ++ "/user/detail/")%string;
     req_headers := headers api;
     req_params :=
       [ ("aid", JStr "1988");
         ("app_name", JStr "tiktok_web");
         ("device_platform", JStr "web");
         ("uniqueId", JStr username) ] |}.

Definition videos_request (api : TikTokAPI) (sec_uid : json) (count cursor : Z)
  : request :=
  {| req_url := (base_url api ++ "/post/item_list/")%string;
     req_headers := headers api;
     req_params :=
       [ ("aid", JStr "1988");
         ("app_name", JStr "tiktok_web");
         ("device_platform", JStr "web");
         ("count", JInt count);
         ("cursor", JInt cursor);
         ("secUid", sec_uid);
         ("type", JInt 1) ] |}.

(** What [search_users] does with a decoded body; the [except] clause does
    not cover this part, so an exception raised here reaches the caller. *)
Definition search_users_body (data : json) : outcome json :=
  let? has_info := py_contains "userInfo" data in
  if negb has_info then Ok (JList [])
  else
    let? info := py_getitem data "userInfo" in
    let? has_list := py_contains "user_list" info in
    if negb has_list then Ok (JList [])
    else
      let? info' := py_getitem data "userInfo" in
      py_getitem info' "user_list".

Definition user_info_body (data : json) : outcome json :=
  let? has_info := py_contains "userInfo" data in
  if negb has_info then Ok JNull else py_getitem data "userInfo".

Definition user_videos_body (data : json) : outcome json :=
  let? has_items := py_contains "itemList" data in
  if negb has_items then Ok (JList []) else py_getitem data "itemList".

Section Pipeline.

Context {builtins : PyBuiltins} {Net : Type} {transport : Transport Net}.

(** [TikTokAPI.search_users] *)
Definition search_users (api : TikTokAPI) (keyword : string) (count offset : Z)
  : M Net json :=
  resp <- get (search_request api keyword count offset) ;;
  match resp with
  | RequestException => ret (JList [])
  | Body data => lift (search_users_body data)
  | Uncaught u => lift (Raise (exn_of_uncaught u))
  end.

(** [TikTokAPI.get_user_info]; [JNull] is Python's [None]. *)
Definition get_user_info (api : TikTokAPI) (username : string) : M Net json :=
  resp <- get (user_info_request api username) ;;
  match resp with
  | RequestException => ret JNull
  | Body data => lift (user_info_body data)
  | Uncaught u => lift (Raise (exn_of_uncaught u))
  end.

(** [TikTokAPI.get_user_videos] *)
Definition get_user_videos (api : TikTokAPI) (sec_uid : json) (count cursor : Z)
  : M Net json :=
  resp <- get (videos_request api sec_uid count cursor) ;;
  match resp with
  | RequestException => ret (JList [])
  | Body data => lift (user_videos_body data)
  | Uncaught u => lift (Raise (exn_of_uncaught u))
  end.

(** ** search_influencers_by_keyword *)

Definition batch_size : Z := 30.

(** The [while len(all_users) < max_results] loop. Every round that does
    not leave the loop adds at least one element, so [max_results] rounds
    of fuel are enough. *)
Fixpoint search_loop (fuel : nat) (api : TikTokAPI) (keyword : string)
  (max_results : Z) (all_users : list json) (offset : Z) : M Net (list json) :=
  if Z.of_nat (List.length all_users) <? max_results then
    match fuel with
    | O => diverge
    | S fuel' =>
        users <- search_users api keyword batch_size offset ;;
        if negb (py_truthy users) then ret all_users
        else
          items <- lift (py_iter users) ;;
          n <- lift (py_len users) ;;
          _ <- sleep ;;
          search_loop fuel' api keyword max_results
            (all_users ++ items) (offset + Z.of_nat n)
    end
  else ret all_users.

(** The key of [{user["user"]["secUid"]: user for user in all_users}]. *)
Definition user_secUid (user : json) : outcome py_key :=
  let? u := py_getitem user "user" in
  let? sec := py_getitem u "secUid" in
  py_hash sec.

Definition search_influencers_by_keyword (api : TikTokAPI) (keyword : string)
  (max_results : Z) : M Net (list json) :=
  all_users <- search_loop (Z.to_nat max_results) api keyword max_results [] 0 ;;
  unique_users <- lift (dict_comprehension user_secUid all_users) ;;
  ret (dict_values unique_users).

(** ** filter_influencers *)

Record influencer : Type := {
  username : json;
  displayName : json;
  bio : json;
  followerCount : Z;
  followingCount : Z;
  videoCount : Z;
  avgViews : Q;
  verified : json;
  secUid : json;
  niche : string;
  profileUrl : string
}.

(** [int(video["stats"]["playCount"])] *)
Definition play_count (video : json) : outcome Z :=
  let? stats := py_getitem video "stats" in
  let? plays := py_getitem stats "playCount" in
  py_int plays.

(** [sum(...)] over the generator: a running total, starting from 0. *)
Fixpoint sum_play_counts_from (acc : Z) (videos : list json) : outcome Z :=
  match videos with
  | [] => Ok acc
  | video :: rest =>
      let? p := play_count video in sum_play_counts_from (acc + p) rest
  end.

Definition total_views_of (videos : json) : outcome Z :=
  let? items := py_iter videos in sum_play_counts_from 0 items.

(** [avg_views >= min_avg_views] *)
Definition meets_floor (avg_views : Q) (min_avg_views : Z) : bool :=
  Qle_bool (inject_Z min_avg_views) avg_views.

(** The dict literal [influencer_data]. *)
Definition influencer_data (user uname sec_uid : json) (follower_count : Z)
  (avg_views : Q) (tag : string) : outcome influencer :=
  let? nickname := py_get user "nickname" (JStr "") in
  let? signature := py_get user "signature" (JStr "") in
  let? following_raw := py_get user "followingCount" (JInt 0) in
  let? following := py_int following_raw in
  let? video_raw := py_get user "videoCount" (JInt 0) in
  let? video_count := py_int video_raw in
  let? is_verified := py_get user "verified" (JBool false) in
  Ok {| username := uname;
        displayName := nickname;
        bio := signature;
        followerCount := follower_count;
        followingCount := following;
        videoCount := video_count;
        avgViews := avg_views;
        verified := is_verified;
        secUid := sec_uid;
        niche := tag;
        profileUrl := ("https://www.tiktok.com/@" ++ py_format uname)%string |}.

(** [total_views / len(videos)], lines 155-156. *)
Definition average_views (videos : json) : outcome Q :=
  let? total_views := total_views_of videos in
  let? n := py_len videos in
  py_truediv total_views (Z.of_nat n).

(** The part of the loop body after the follower check: fetch the videos,
    average the play counts, compare with the floor. *)
Definition analyze_videos (api : TikTokAPI) (min_avg_views : Z) (tag : string)
  (user uname sec_uid : json) (follower_count : Z) : M Net (option influencer) :=
  videos <- get_user_videos api sec_uid 30 0 ;;
  if negb (py_truthy videos) then ret None
  else
    avg_views <- lift (average_views videos) ;;
    found <- (if meets_floor avg_views min_avg_views
              then inf <- lift (influencer_data user uname sec_uid
                                  follower_count avg_views tag) ;;
                   ret (Some inf)
              else ret None) ;;
    _ <- sleep ;;
    ret found.

(** The reads that open the loop body, lines 137-140: the user record, its
    handle, its secondary id and [int(user.get("followerCount", 0))]. *)
Definition candidate_fields (user_data : json) : outcome (json * json * json * Z) :=
  let? user := py_getitem user_data "user" in
  let? uname := py_getitem user "uniqueId" in
  let? sec_uid := py_getitem user "secUid" in
  let? followers_raw := py_get user "followerCount" (JInt 0) in
  let? follower_count := py_int followers_raw in
  Ok (user, uname, sec_uid, follower_count).

(** One round of [for user_data in users]; [None] when the candidate is
    not appended to [qualified_influencers]. *)
Definition analyze_account (api : TikTokAPI) (max_followers min_avg_views : Z)
  (tag : string) (user_data : json) : M Net (option influencer) :=
  fields <- lift (candidate_fields user_data) ;;
  let '(user, uname, sec_uid, follower_count) := fields in
  if follower_count >? max_followers then ret None
  else analyze_videos api min_avg_views tag user uname sec_uid follower_count.

Fixpoint filter_loop (api : TikTokAPI) (max_followers min_avg_views : Z)
  (tag : string) (users : list json) (qualified_influencers : list influencer)
  : M Net (list influencer) :=
  match users with
  | [] => ret qualified_influencers
  | user_data :: rest =>
      found <- analyze_account api max_followers min_avg_views tag user_data ;;
      filter_loop api max_followers min_avg_views tag rest
        (match found with
         | Some inf => qualified_influencers ++ [inf]
         | None => qualified_influencers
         end)
  end.

Definition filter_influencers (api : TikTokAPI) (users : list json)
  (max_followers min_avg_views : Z) (tag : string) : M Net (list influencer) :=
  filter_loop api max_followers min_avg_views tag users [].

(** ** find_tiktok_influencers *)

(** [for keyword in keywords], extending [all_influencers]. *)
Fixpoint keywords_loop (api : TikTokAPI) (max_followers min_avg_views : Z)
  (results_per_keyword : Z) (keywords : list string)
  (all_influencers : list influencer) : M Net (list influencer) :=
  match keywords with
  | [] => ret all_influencers
  | keyword :: rest =>
      users <- search_influencers_by_keyword api keyword results_per_keyword ;;
      qualified <- filter_influencers api users max_followers min_avg_views keyword ;;
      keywords_loop api max_followers min_avg_views results_per_keyword rest
        (all_influencers ++ qualified)
  end.

(** The key of [{inf["username"]: inf for inf in all_influencers}]. *)
Definition influencer_key (inf : influencer) : outcome py_key :=
  py_hash (username inf).

Definition find_tiktok_influencers (keywords : list string)
  (max_followers min_avg_views : Z) (ms_token : option string)
  (results_per_keyword : Z) : M Net (list influencer) :=
  let api := TikTokAPI_init ms_token in
  all_influencers <- keywords_loop api max_followers min_avg_views
                       results_per_keyword keywords [] ;;
  unique_influencers <- lift (dict_comprehension influencer_key all_influencers) ;;
  ret (dict_values unique_influencers).

End Pipeline.

(** ** Notions used in the statements *)


Definition sum_Z (l : list Z) : Z := fold_right Z.add 0 l.

Definition mean (counts : list Z) : Q :=
  (inject_Z (sum_Z counts) / inject_Z (Z.of_nat (List.length counts)))%Q.


(** The world after one rate-limit pause. *)
Definition napped {Net : Type} (w : world Net) : world Net :=
  {| net := net w; calls := calls w; naps := S (naps w) |}.

(** [has_key keyf k x]: the dict key computed for [x] is [k]. *)
Definition has_key {A : Type} (keyf : A -> outcome py_key) (k : py_key) (x : A) : bool :=
  match keyf x with
  | Ok k' => key_eqb k' k
  | _ => false
  end.

(** The last element of [l] filed under [k], if any. *)
Definition last_with_key {A : Type} (keyf : A -> outcome py_key) (k : py_key)
  (l : list A) : option A :=
  find (has_key keyf k) (rev l).

Definition option_list {A : Type} (o : option A) : list A :=
  match o with
  | Some x => [x]
  | None => []
  end.

(** [lacks key j]: the body [j] can be searched for [key] (an object, an
    array or a string) and does not hold it: no such key in the object, no
    such string in the array, no such substring in the string. *)
Definition lacks (key : string) (j : json) : bool :=
  match j with
  | JObj o => match assoc key o with Some _ => false | None => true end
  | JList l => negb (existsb (is_str key) l)
  | JStr s => negb (is_substring key s)
  | _ => false
  end.

(** The responses on which the adapter's own recovery applies: the request
    raised a [RequestException], or the body lacks the expected key
    ([userInfo], or [user_list] inside the [userInfo] entry of an object
    for a search; [itemList] for a video list). *)
Definition search_failed_or_missing (resp : response) : bool :=
  match resp with
  | RequestException => true
  | Body data =>
      lacks "userInfo" data
      || match data with
         | JObj o =>
             match assoc "userInfo" o with
             | Some info => lacks "user_list" info
             | None => false
             end
         | _ => false
         end
  | Uncaught _ => false
  end.

Definition videos_failed_or_missing (resp : response) : bool :=
  match resp with
  | RequestException => true
  | Body data => lacks "itemList" data
  | Uncaught _ => false
  end.

(** A computation that cannot end in a division by zero. *)
Definition no_zero_division {A : Type} (o : outcome A) : Prop :=
  o <> Raise ZeroDivisionError.

Definition never_divides_by_zero {Net A : Type} (c : M Net A) : Prop :=
  forall w, no_zero_division (fst (c w)).

(** Every entry of the dict is filed under the key of its value, and no
    key is filed twice. *)
Definition well_keyed {A : Type} (keyf : A -> outcome py_key) (d : pydict A) : Prop :=
  (forall k v, In (k, v) d -> keyf v = Ok k) /\ NoDup (map fst d).

(** [replays related c]: started in two worlds whose networks are
    [related], the computation [c] ends with the same outcome, in worlds
    whose networks are again [related]. *)
Definition replays {Net A : Type} (related : Net -> Net -> Prop) (c : M Net A) : Prop :=
  forall w1 w2,
    related (net w1) (net w2) ->
    fst (c w1) = fst (c w2) /\ related (net (snd (c w1))) (net (snd (c w2))).

(** ** Concrete runtimes, networks and scenarios *)

Fixpoint digits_value (acc : Z) (s : string) : option Z :=
  match s with
  | EmptyString => Some acc
  | String c s' =>
      let n := nat_of_ascii c in
      if ((48 <=? n) && (n <=? 57))%nat
      then digits_value (10 * acc + Z.of_nat (n - 48)) s'
      else None
  end.

(** Plain decimal numerals, with an optional minus sign. *)
Definition decimal_of_str (s : string) : option Z :=
  match s with
  | EmptyString => None
  | String "-" EmptyString => None
  | String "-" s' => option_map Z.opp (digits_value 0 s')
  | _ => digits_value 0 s
  end.

(** Text of the scalar values; containers are abbreviated. *)
Definition text_of_json (j : json) : string :=
  match j with
  | JNull => "None"
  | JBool true => "True"
  | JBool false => "False"
  | JInt z => DecimalString.NilZero.string_of_int (Z.to_int z)
  | JStr s => s
  | JList _ => "[...]"
  | JObj _ => "{...}"
  end.

#[export] Instance plain_builtins : PyBuiltins :=
  {| int_of_str := decimal_of_str; str_of_json := text_of_json |}.

(** A network that plays back a fixed script of responses, one per
    request, and fails once the script is used up. *)
#[export] Instance scripted : Transport (list response) :=
  {| http_get := fun _ script =>
       match script with
       | [] => (RequestException, [])
       | r :: rest => (r, rest)
       end |}.

(** A network whose answer depends on the request alone. *)
#[export] Instance frozen_server : Transport (request -> response) :=
  {| http_get := fun r server => (server r, server) |}.

Definition fresh {Net : Type} (n : Net) : world Net :=
  {| net := n; calls := []; naps := 0 |}.

(** Sample data: a search hit, a video and the bodies wrapping them. *)
Definition sample_user (handle : string) (followers : Z) : json :=
  JObj [ ("user", JObj [ ("uniqueId", JStr handle);
                         ("secUid", JStr ("sec-" ++ handle)%string);
                         ("nickname", JStr handle);
                         ("followerCount", JInt followers) ]) ].

Definition sample_video (plays : Z) : json :=
  JObj [ ("stats", JObj [ ("playCount", JInt plays) ]) ].

Definition search_page (users : list json) : response :=
  Body (JObj [ ("userInfo", JObj [ ("user_list", JList users) ]) ]).

Definition video_page (plays : list Z) : response :=
  Body (JObj [ ("itemList", JList (map sample_video plays)) ]).

(** Scenario D: one candidate under the ceiling whose video fetch comes
    back empty. *)
Definition scenario_d_script : list response :=
  [ video_page [] ].

(** Scenario A, second candidate: three videos of 50000 plays each. *)
Definition scenario_a_script : list response :=
  [ video_page [50000; 50000; 50000] ].

(** A search page where the identifier "sec-a" comes twice, with
    different follower counts. *)
Definition duplicate_page : list json :=
  [ sample_user "a" 100;
    sample_user "b" 200;
    JObj [ ("user", JObj [ ("uniqueId", JStr "a2");
                           ("secUid", JStr "sec-a");
                           ("followerCount", JInt 150) ]) ] ].

Definition duplicate_script : list response :=
  [ search_page duplicate_page; search_page [] ].

(** Scenario B: the keywords "tech" and "ai" both surface the handle
    "alice"; each search is one page followed by an empty page, and each
    analysis fetches one video list. *)
Definition scenario_b_script : list response :=
  [ search_page [sample_user "alice" 100]; search_page [];
    video_page [50000; 50000; 50000];
    search_page [sample_user "alice" 100]; search_page [];
    video_page [60000; 60000] ].

Definition alice_under (tag : string) (avg : Q) : influencer :=
  {| username := JStr "alice";
     displayName := JStr "alice";
     bio := JStr "";
     followerCount := 100;
     followingCount := 0;
     videoCount := 0;
     avgViews := avg;
     verified := JBool false;
     secUid := JStr "sec-alice";
     niche := tag;
     profileUrl := "https://www.tiktok.com/@alice" |}.

(** A server that answers every search with the same two candidates and
    every video request by the candidate's secondary id. *)
Definition scenario_a_server (r : request) : response :=
  if String.eqb (req_url r) "https://www.tiktok.com/api/search/user/full/"
  then search_page [sample_user "a" 100; sample_user "b" 200]
  else match assoc "secUid" (req_params r) with
       | Some (JStr "sec-a") => video_page [10000; 20000; 30000]
       | Some (JStr "sec-b") => video_page [50000; 50000; 50000]
       | _ => RequestException
       end.

(** [count] search hits with the handles "u<start>", "u<start+1>", ... *)
Fixpoint numbered_users (start count : nat) : list json :=
  match count with
  | O => []
  | S count' =>
      sample_user ("u" ++ NilEmpty.string_of_uint (Nat.to_uint start))%string 100
      :: numbered_users (S start) count'
  end.

(** Full pages of 30 distinct accounts each. *)
Definition full_pages_script : list response :=
  [ search_page (numbered_users 0 30);
    search_page (numbered_users 30 30);
    search_page (numbered_users 60 30) ].

(** A body that is valid JSON but not an object. *)
Definition null_body_script : list response := [ Body JNull ].

(** A JSON object without any of the expected keys. *)
Definition empty_object_script : list response := [ Body (JObj []) ].



(** Scenario C: the first search call returns an empty list. *)
Definition scenario_c_script : list response := [ search_page [] ].

(** ** main: the text summary's path

    Of [main], the argument parsing, the pandas table and the file writes
    are outside the model; the path of the text summary is plain string
    code. *)

(** [s.replace(old, new)] for a non-empty [old]: occurrences are found
    left to right and do not overlap; [skip] counts the characters of the
    occurrence just replaced that are still to be passed over. *)
Fixpoint str_replace_from (old new : string) (skip : nat) (s : string) : string :=
  match s with
  | EmptyString => EmptyString
  | String c s' =>
      match skip with
      | S k => str_replace_from old new k s'
      | O =>
          if String.prefix old s
          then (new ++ str_replace_from old new (String.length old - 1) s')%string
          else String c (str_replace_from old new 0 s')
      end
  end.

(** With an empty [old], [new] goes before every character and at the
    end. *)
Fixpoint str_surround (new s : string) : string :=
  match s with
  | EmptyString => new
  | String c s' => (new ++ String c (str_surround new s'))%string
  end.

Definition str_replace (old new s : string) : string :=
  match old with
  | EmptyString => str_surround new s
  | _ => str_replace_from old new 0 s
  end.

(** [txt_output = args.output.replace('.csv', '.txt')], line 271. *)
Definition txt_output (output : string) : string :=
  str_replace ".csv" ".txt" output.

(** The keys of the elements of [l], in order; elements without a key are
    passed over. *)
Fixpoint keys_of {A : Type} (keyf : A -> outcome py_key) (l : list A) : list py_key :=
  match l with
  | [] => []
  | x :: rest =>
      match keyf x with
      | Ok k => k :: keys_of keyf rest
      | _ => keys_of keyf rest
      end
  end.

(** Each key once, at the place where it first appears. *)
Fixpoint first_seen (ks : list py_key) : list py_key :=
  match ks with
  | [] => []
  | k :: rest => k :: filter (fun k' => negb (key_eqb k k')) (first_seen rest)
  end.

Definition mem_key (k : py_key) (ks : list py_key) : bool :=
  existsb (fun k' => key_eqb k' k) ks.

(** The outcomes a computation over platform data may end in: a value;
    [KeyError], [TypeError] or [ValueError] for data of another shape;
    [OverflowError] for an average beyond the floats; or what [requests]
    let through ([ValueError], [RecursionError], another class). Left
    out: [AttributeError], [ZeroDivisionError] and running forever. *)
Definition ok_or_data_error {A : Type} (o : outcome A) : Prop :=
  match o with
  | Ok _ => True
  | Raise (KeyError _) => True
  | Raise TypeError => True
  | Raise ValueError => True
  | Raise OverflowError => True
  | Raise RecursionError => True
  | Raise (OtherError _) => True
  | Raise AttributeError => False
  | Raise ZeroDivisionError => False
  | Diverge => False
  end.

(** What the filter promises of a record it returns. *)
Definition qualifies (max_followers min_avg_views : Z) (tag : string)
  (inf : influencer) : Prop :=
  followerCount inf <= max_followers
  /\ meets_floor (avgViews inf) min_avg_views = true
  /\ niche inf = tag.

(** ** Further notions used in the statements *)

(** The secondary ids the filter fetches videos for: those of the
    candidates whose fields read and whose follower count is within the
    ceiling, in list order. *)
Fixpoint fetch_targets `{PyBuiltins} (max_followers : Z) (users : list json)
  : list json :=
  match users with
  | [] => []
  | user_data :: rest =>
      match candidate_fields user_data with
      | Ok (_, _, sec_uid, follower_count) =>
          if follower_count >? max_followers
          then fetch_targets max_followers rest
          else sec_uid :: fetch_targets max_followers rest
      | _ => fetch_targets max_followers rest
      end
  end.

(** [cursors lo hi offs]: the offsets lie in [lo, hi) and each one is
    greater than the one before. *)
Fixpoint cursors (lo hi : Z) (offs : list Z) : Prop :=
  match offs with
  | [] => True
  | o :: rest => lo <= o < hi /\ cursors (o + 1) hi rest
  end.

(** [emits P c]: whatever [c] does, the requests it adds to the log all
    satisfy [P], and the log is only ever extended. *)
Definition emits {Net A : Type} (P : request -> Prop) (c : M Net A) : Prop :=
  forall w, exists l, calls (snd (c w)) = calls w ++ l /\ Forall P l.

(** What an adapter call may end in, given the response [resp] to its
    request: a value, a [TypeError], or the exception that [requests]
    raised outside [RequestException]. *)
Definition value_type_error_or_uncaught {A : Type} (resp : response) (o : outcome A)
  : Prop :=
  match o with
  | Ok _ => True
  | Raise e => e = TypeError \/ exists u, resp = Uncaught u /\ e = exn_of_uncaught u
  | Diverge => False
  end.

(** Either a value or a [TypeError]. *)
Definition ok_or_type_error {A : Type} (o : outcome A) : Prop :=
  match o with
  | Ok _ => True
  | Raise TypeError => True
  | _ => False
  end.

(** The number of items of a search page, as the aggregator counts them. *)
Definition page_items (resp : response) : nat :=
  match resp with
  | RequestException => 0
  | Body data =>
      match search_users_body data with
      | Ok users => match py_iter users with Ok items => List.length items | _ => 0 end
      | _ => 0
      end
  | Uncaught _ => 0
  end.

Definition small_pages (limit : nat) (script : list response) : Prop :=
  Forall (fun resp => (page_items resp <= limit)%nat) script.

(** [sublist l1 l2]: [l1] is [l2] with some elements left out. *)
Inductive sublist {A : Type} : list A -> list A -> Prop :=
| sublist_nil : sublist [] []
| sublist_skip x l1 l2 : sublist l1 l2 -> sublist l1 (x :: l2)
| sublist_keep x l1 l2 : sublist l1 l2 -> sublist (x :: l1) (x :: l2).

(** The record [inf] was built from the candidate [user_data]. *)
Definition built_from `{PyBuiltins} (user_data : json) (inf : influencer) : Prop :=
  exists user,
    candidate_fields user_data
    = Ok (user, username inf, secUid inf, followerCount inf).

(** ** Further scenarios *)

(** The record the filter builds for [sample_user handle followers]. *)
Definition sample_record (handle : string) (followers : Z) (tag : string) (avg : Q)
  : influencer :=
  {| username := JStr handle;
     displayName := JStr handle;
     bio := JStr "";
     followerCount := followers;
     followingCount := 0;
     videoCount := 0;
     avgViews := avg;
     verified := JBool false;
     secUid := JStr ("sec-" ++ handle)%string;
     niche := tag;
     profileUrl := ("https://www.tiktok.com/@" ++ handle)%string |}.

(** Three candidates for [scenario_a_server]: one below the floor, one
    above the ceiling, one that qualifies. *)
Definition mixed_candidates : list json :=
  [ sample_user "a" 100; sample_user "big" 600000; sample_user "b" 200 ].

(** One candidate's videos: [2^60], [2^60] and [2^60 - 1] plays. *)
Definition rounding_script : list response :=
  [ video_page [2 ^ 60; 2 ^ 60; 2 ^ 60 - 1] ].

(** A search hit with a handle but no secondary id. *)
Definition user_without_secUid : json :=
  JObj [ ("user", JObj [ ("uniqueId", JStr "x") ]) ].

Definition keyless_script : list response :=
  [ search_page [ sample_user "a" 100; user_without_secUid; sample_user "b" 200 ];
    search_page [] ].

(** The first keyword goes through; the search for the second one is
    answered with [null]. *)
Definition failing_keyword_script : list response :=
  [ search_page [sample_user "alice" 100]; search_page [];
    video_page [50000; 50000; 50000];
    Body JNull ].

(** * Properties *)

(** ** The monad *)

Lemma bind_Ok {Net A B : Type} (c : M Net A) (k : A -> M Net B) w a w' :
  c w = (Ok a, w') -> bind c k w = k a w'.
Proof. intros Hc. unfold bind. now rewrite Hc. Qed.

Lemma bind_lift_Ok {Net A B : Type} (o : outcome A) (k : A -> M Net B) w a :
  o = Ok a -> bind (lift o) k w = k a w.
Proof. intros ->. reflexivity. Qed.

Lemma bind_inv_Ok {Net A B : Type} (c : M Net A) (k : A -> M Net B) w b w2 :
  bind c k w = (Ok b, w2) ->
  exists a w1, c w = (Ok a, w1) /\ k a w1 = (Ok b, w2).
Proof.
  unfold bind. destruct (c w) as [[a | e |] w1]; intros Hk; try discriminate.
  now exists a, w1.
Qed.

Lemma obind_inv_Ok {A B : Type} (c : outcome A) (k : A -> outcome B) b :
  obind c k = Ok b -> exists a, c = Ok a /\ k a = Ok b.
Proof. destruct c as [a | e |]; simpl; intros Hk; try discriminate. now exists a. Qed.

Lemma no_zero_division_obind {A B : Type} (c : outcome A) (k : A -> outcome B) :
  no_zero_division c ->
  (forall a, c = Ok a -> no_zero_division (k a)) ->
  no_zero_division (obind c k).
Proof.
  intros Hc Hk. destruct c as [a | e |]; simpl.
  - now apply Hk.
  - intros Heq. apply Hc. injection Heq as ->. reflexivity.
  - discriminate.
Qed.

Lemma bind_no_zero_division {Net A B : Type} (c : M Net A) (k : A -> M Net B) w :
  no_zero_division (fst (c w)) ->
  (forall a w', c w = (Ok a, w') -> no_zero_division (fst (k a w'))) ->
  no_zero_division (fst (bind c k w)).
Proof.
  intros Hc Hk. unfold bind.
  destruct (c w) as [[a | e |] w'] eqn:Hcw; simpl in *.
  - now apply (Hk a w').
  - intros Heq. apply Hc. injection Heq as ->. reflexivity.
  - discriminate.
Qed.

(** ** Python primitives *)

Lemma py_getitem_no_zero_division j k : no_zero_division (py_getitem j k).
Proof.
  destruct j; simpl; try discriminate.
  destruct (assoc k o); discriminate.
Qed.

Lemma py_get_no_zero_division j k d : no_zero_division (py_get j k d).
Proof. destruct j; simpl; discriminate. Qed.

Lemma py_contains_no_zero_division k j : no_zero_division (py_contains k j).
Proof. destruct j; simpl; discriminate. Qed.

Lemma py_iter_no_zero_division j : no_zero_division (py_iter j).
Proof. destruct j; simpl; discriminate. Qed.

Lemma py_int_no_zero_division `{PyBuiltins} j : no_zero_division (py_int j).
Proof.
  destruct j; simpl; try discriminate.
  destruct (int_of_str s); discriminate.
Qed.

Lemma py_truthy_len j n :
  py_truthy j = true -> py_len j = Ok n -> (0 < n)%nat.
Proof.
  destruct j; simpl; intros Ht Hn; try discriminate; injection Hn as <-.
  - destruct s; simpl in *; [discriminate | lia].
  - destruct l; simpl in *; [discriminate | lia].
  - destruct o; simpl in *; [discriminate | lia].
Qed.

Lemma py_truthy_iter j items :
  py_truthy j = true -> py_iter j = Ok items -> (0 < List.length items)%nat.
Proof.
  destruct j; simpl; intros Ht Hn; try discriminate; injection Hn as <-.
  - destruct s; simpl in *; [discriminate | lia].
  - destruct l; simpl in *; [discriminate | lia].
  - destruct o; simpl in *; [discriminate | lia].
Qed.

Lemma py_len_no_zero_division j : no_zero_division (py_len j).
Proof. destruct j; simpl; discriminate. Qed.

(** ** True division *)






Local Open Scope Q_scope.







Local Close Scope Q_scope.

(** With a divisor that is not zero, the division returns a float or
    overflows. *)
Lemma py_truediv_cases a n :
  n <> 0 ->
  (exists v, py_truediv a n = Ok v) \/ py_truediv a n = Raise OverflowError.
Proof.
  intros Hn. unfold py_truediv.
  destruct (n =? 0) eqn:E; [apply Z.eqb_eq in E; contradiction |].
  destruct (a =? 0); [left; now eexists |].
  destruct (nearest_binary64 (Z.abs a) (Z.abs n)); [left; now eexists | now right].
Qed.

(** ** Dict comprehensions *)

Lemma key_eqb_eq a b : key_eqb a b = true <-> a = b.
Proof.
  destruct a, b; simpl; split; intros H; try discriminate; try reflexivity.
  - apply Z.eqb_eq in H. now subst.
  - injection H as ->. apply Z.eqb_refl.
  - apply String.eqb_eq in H. now subst.
  - injection H as ->. apply String.eqb_refl.
Qed.

Lemma key_eqb_refl a : key_eqb a a = true.
Proof. now apply key_eqb_eq. Qed.

Lemma find_app {A : Type} (f : A -> bool) (l1 l2 : list A) :
  find f (l1 ++ l2) = match find f l1 with Some x => Some x | None => find f l2 end.
Proof.
  induction l1 as [| x l1 IH]; simpl; [reflexivity |].
  now destruct (f x).
Qed.

Section Dicts.

Context {A : Type} (keyf : A -> outcome py_key).

Lemma dict_set_length k v (d : pydict A) :
  (List.length (dict_set k v d) <= S (List.length d))%nat.
Proof.
  induction d as [| [k' v'] d IH]; simpl; [lia |].
  destruct (key_eqb k' k); simpl; lia.
Qed.

Lemma dict_set_lookup k v (d : pydict A) k0 :
  dict_lookup k0 (dict_set k v d) =
  if key_eqb k k0 then Some v else dict_lookup k0 d.
Proof.
  induction d as [| [k' v'] d IH]; simpl.
  - reflexivity.
  - destruct (key_eqb k' k) eqn:E; simpl.
    + apply key_eqb_eq in E. subst k'.
      now destruct (key_eqb k k0).
    + rewrite IH. destruct (key_eqb k' k0) eqn:E0; [| reflexivity].
      apply key_eqb_eq in E0. subst k0.
      destruct (key_eqb k k') eqn:E1; [| reflexivity].
      apply key_eqb_eq in E1. subst k'. now rewrite key_eqb_refl in E.
Qed.

Lemma dict_set_In k v (d : pydict A) k0 v0 :
  In (k0, v0) (dict_set k v d) -> (k0 = k /\ v0 = v) \/ In (k0, v0) d.
Proof.
  induction d as [| [k' v'] d IH]; simpl.
  - intros [H | []]. injection H as <- <-. now left.
  - destruct (key_eqb k' k) eqn:E; simpl.
    + apply key_eqb_eq in E. subst k'.
      intros [H | H]; [injection H as <- <-; now left | right; now right].
    + intros [H | H]; [right; now left |].
      destruct (IH H) as [Hl | Hr]; [now left | right; now right].
Qed.

Lemma dict_set_keys k v (d : pydict A) k0 :
  In k0 (map fst (dict_set k v d)) -> k0 = k \/ In k0 (map fst d).
Proof.
  induction d as [| [k' v'] d IH]; simpl.
  - intros [H | []]. now left.
  - destruct (key_eqb k' k) eqn:E; simpl.
    + intros [H | H]; [right; now left | right; now right].
    + intros [H | H]; [right; now left |].
      destruct (IH H) as [Hl | Hr]; [now left | right; now right].
Qed.

Lemma dict_set_well_keyed k v (d : pydict A) :
  keyf v = Ok k -> well_keyed keyf d -> well_keyed keyf (dict_set k v d).
Proof.
  intros Hk [Hfiled Hnodup]. split.
  - intros k0 v0 Hin. apply dict_set_In in Hin as [[-> ->] | Hin]; [exact Hk | now apply Hfiled].
  - clear Hfiled. induction d as [| [k' v'] d IH]; simpl.
    + constructor; [intros [] | constructor].
    + simpl in Hnodup. inversion Hnodup as [| ? ? Hnotin Hrest]; subst.
      destruct (key_eqb k' k) eqn:E; simpl.
      * constructor; assumption.
      * constructor; [| now apply IH].
        intros Hin. apply dict_set_keys in Hin as [-> | Hin]; [| contradiction].
        now rewrite key_eqb_refl in E.
Qed.

Lemma dict_comprehension_from_length l :
  forall d d',
    dict_comprehension_from keyf l d = Ok d' ->
    (List.length d' <= List.length l + List.length d)%nat.
Proof.
  induction l as [| x l IH]; simpl; intros d d' Hrun.
  - injection Hrun as <-. lia.
  - apply obind_inv_Ok in Hrun as (k & _ & Hrun).
    apply IH in Hrun. pose proof (dict_set_length k x d). lia.
Qed.

Lemma dict_comprehension_from_well_keyed l :
  forall d d',
    dict_comprehension_from keyf l d = Ok d' -> well_keyed keyf d -> well_keyed keyf d'.
Proof.
  induction l as [| x l IH]; simpl; intros d d' Hrun Hd.
  - now injection Hrun as <-.
  - apply obind_inv_Ok in Hrun as (k & Hk & Hrun).
    apply (IH _ _ Hrun). now apply dict_set_well_keyed.
Qed.

(** Last write wins: a key of the result maps to the last element of the
    input filed under it, and otherwise to what the dict held before. *)
Lemma dict_comprehension_from_lookup l :
  forall d d' k,
    dict_comprehension_from keyf l d = Ok d' ->
    dict_lookup k d' =
    match last_with_key keyf k l with
    | Some x => Some x
    | None => dict_lookup k d
    end.
Proof.
  unfold last_with_key.
  induction l as [| x l IH]; simpl; intros d d' k Hrun.
  - now injection Hrun as <-.
  - apply obind_inv_Ok in Hrun as (kx & Hkx & Hrun).
    rewrite (IH _ _ k Hrun). rewrite find_app. simpl.
    destruct (find (has_key keyf k) (rev l)); [reflexivity |].
    rewrite dict_set_lookup. unfold has_key. rewrite Hkx.
    now destruct (key_eqb kx k).
Qed.

Lemma well_keyed_filter (d : pydict A) k :
  well_keyed keyf d ->
  filter (has_key keyf k) (dict_values d) = option_list (dict_lookup k d).
Proof.
  intros [Hfiled Hnodup].
  induction d as [| [k1 v1] d IH]; simpl; [reflexivity |].
  simpl in Hnodup. inversion Hnodup as [| ? ? Hnotin Hrest]; subst.
  assert (Hfiled' : forall k0 v0, In (k0, v0) d -> keyf v0 = Ok k0).
  { intros k0 v0 Hin. apply Hfiled. now right. }
  unfold has_key at 1. rewrite (Hfiled k1 v1 (or_introl eq_refl)).
  destruct (key_eqb k1 k) eqn:E.
  - apply key_eqb_eq in E. subst k1. simpl. f_equal.
    clear IH Hfiled Hnodup Hrest.
    induction d as [| [k2 v2] d IH2]; simpl; [reflexivity |].
    unfold has_key at 1. rewrite (Hfiled' k2 v2 (or_introl eq_refl)).
    destruct (key_eqb k2 k) eqn:E2.
    + apply key_eqb_eq in E2. subst k2. elim Hnotin. now left.
    + apply IH2.
      * intros Hin. apply Hnotin. now right.
      * intros k0 v0 Hin. apply Hfiled'. now right.
  - now apply IH.
Qed.

(** The values of [{keyf(x): x for x in l}]: no more of them than
    elements of [l], and under each key exactly the last element of [l]
    filed under it. *)
Lemma dict_comprehension_last_write_wins l d :
  dict_comprehension keyf l = Ok d ->
  (List.length (dict_values d) <= List.length l)%nat
  /\ forall k, filter (has_key keyf k) (dict_values d) =
               option_list (last_with_key keyf k l).
Proof.
  unfold dict_comprehension. intros Hrun. split.
  - unfold dict_values. rewrite length_map.
    apply dict_comprehension_from_length in Hrun. simpl in Hrun. lia.
  - intros k. rewrite well_keyed_filter.
    + rewrite (dict_comprehension_from_lookup _ _ _ k Hrun). simpl.
      now destruct (last_with_key keyf k l).
    + apply (dict_comprehension_from_well_keyed _ _ _ Hrun).
      split; [intros ? ? [] | constructor].
Qed.

End Dicts.

Section PipelineFacts.

Context {builtins : PyBuiltins} {Net : Type} {transport : Transport Net}.

(** ** The adapter's effect on the world *)

Lemma get_world (r : request) (w : world Net) :
  get r w =
  (Ok (fst (http_get r (net w))),
   {| net := snd (http_get r (net w)); calls := calls w ++ [r]; naps := naps w |}).
Proof. unfold get. now destruct (http_get r (net w)). Qed.

Lemma get_user_videos_calls api sec count cursor (w : world Net) :
  calls (snd (get_user_videos api sec count cursor w)) =
  calls w ++ [videos_request api sec count cursor].
Proof.
  unfold get_user_videos, bind. rewrite get_world.
  destruct (fst (http_get _ _)) as [| data | u]; reflexivity.
Qed.

Lemma search_users_calls api keyword count offset (w : world Net) :
  calls (snd (search_users api keyword count offset w)) =
  calls w ++ [search_request api keyword count offset].
Proof.
  unfold search_users, bind. rewrite get_world.
  destruct (fst (http_get _ _)) as [| data | u]; reflexivity.
Qed.

(** ** No division by zero in the filter *)

Lemma user_videos_body_no_zero_division data :
  no_zero_division (user_videos_body data).
Proof.
  unfold user_videos_body. apply no_zero_division_obind.
  - apply py_contains_no_zero_division.
  - intros has _. destruct has; simpl; [apply py_getitem_no_zero_division | discriminate].
Qed.

Lemma get_user_videos_never_divides api sec count cursor :
  never_divides_by_zero (get_user_videos api sec count cursor).
Proof.
  intros w. unfold get_user_videos, bind. rewrite get_world.
  destruct (fst (http_get _ _)) as [| data | u]; simpl;
    [discriminate | | destruct u; discriminate].
  apply user_videos_body_no_zero_division.
Qed.

Lemma play_count_no_zero_division video : no_zero_division (play_count video).
Proof.
  unfold play_count.
  apply no_zero_division_obind; [apply py_getitem_no_zero_division | intros stats _].
  apply no_zero_division_obind; [apply py_getitem_no_zero_division | intros plays _].
  apply py_int_no_zero_division.
Qed.

Lemma sum_play_counts_from_no_zero_division videos :
  forall acc, no_zero_division (sum_play_counts_from acc videos).
Proof.
  induction videos as [| video rest IH]; intros acc; simpl; [discriminate |].
  apply no_zero_division_obind; [apply play_count_no_zero_division | intros p _; apply IH].
Qed.

Lemma average_views_no_zero_division videos :
  py_truthy videos = true -> no_zero_division (average_views videos).
Proof.
  intros Htruthy. unfold average_views, total_views_of.
  apply no_zero_division_obind.
  - apply no_zero_division_obind; [apply py_iter_no_zero_division | intros items _].
    apply sum_play_counts_from_no_zero_division.
  - intros total _. apply no_zero_division_obind; [apply py_len_no_zero_division |].
    intros n Hn. pose proof (py_truthy_len _ _ Htruthy Hn) as Hpos.
    destruct (py_truediv_cases total (Z.of_nat n) ltac:(lia)) as [[v Hv] | Hv];
      rewrite Hv; discriminate.
Qed.

Lemma influencer_data_no_zero_division user uname sec fc avg tag :
  no_zero_division (influencer_data user uname sec fc avg tag).
Proof.
  unfold influencer_data.
  repeat (apply no_zero_division_obind;
          [first [apply py_get_no_zero_division | apply py_int_no_zero_division] | intros ? _]).
  discriminate.
Qed.

Lemma candidate_fields_no_zero_division user_data :
  no_zero_division (candidate_fields user_data).
Proof.
  unfold candidate_fields.
  repeat (apply no_zero_division_obind;
          [first [apply py_getitem_no_zero_division | apply py_get_no_zero_division
                 | apply py_int_no_zero_division] | intros ? _]).
  discriminate.
Qed.

Lemma analyze_videos_never_divides api minv tag user uname sec fc :
  never_divides_by_zero (analyze_videos api minv tag user uname sec fc).
Proof.
  intros w. unfold analyze_videos.
  apply bind_no_zero_division; [apply get_user_videos_never_divides |].
  intros videos w1 _.
  destruct (py_truthy videos) eqn:Htruthy; simpl; [| discriminate].
  apply bind_no_zero_division.
  - now apply average_views_no_zero_division.
  - intros avg w2 _. apply bind_no_zero_division.
    + destruct (meets_floor avg minv); [| discriminate].
      apply bind_no_zero_division.
      * apply influencer_data_no_zero_division.
      * intros inf w3 _. discriminate.
    + intros found w3 _. discriminate.
Qed.

Lemma analyze_account_never_divides api maxf minv tag user_data :
  never_divides_by_zero (analyze_account api maxf minv tag user_data).
Proof.
  intros w. unfold analyze_account.
  apply bind_no_zero_division.
  - apply candidate_fields_no_zero_division.
  - intros [[[user uname] sec] fc] w' _.
    destruct (fc >? maxf); [discriminate |].
    apply analyze_videos_never_divides.
Qed.

Lemma filter_loop_never_divides api maxf minv tag users :
  forall qualified, never_divides_by_zero (filter_loop api maxf minv tag users qualified).
Proof.
  induction users as [| user_data rest IH]; intros qualified w; simpl.
  - discriminate.
  - apply bind_no_zero_division; [apply analyze_account_never_divides |].
    intros found w' _. apply IH.
Qed.

(** ** What one round of the filter does *)

Lemma analyze_account_fields api maxf minv tag user_data user uname sec fc w :
  candidate_fields user_data = Ok (user, uname, sec, fc) ->
  analyze_account api maxf minv tag user_data w =
  if fc >? maxf then (Ok None, w)
  else analyze_videos api minv tag user uname sec fc w.
Proof.
  intros Hfields. unfold analyze_account.
  rewrite (bind_lift_Ok _ _ _ _ Hfields).
  now destruct (fc >? maxf).
Qed.

(** C1. A candidate that passes the follower check and whose video fetch
    comes back empty is rejected right after the fetch, in the world the
    fetch left behind; and no run of the filter, on any candidate list and
    in any world, ends in a division by zero. *)
Theorem empty_fetch_rejected_before_average
  api maxf minv tag user_data user uname sec fc videos (w w' : world Net) :
  candidate_fields user_data = Ok (user, uname, sec, fc) ->
  fc <= maxf ->
  get_user_videos api sec 30 0 w = (Ok videos, w') ->
  py_truthy videos = false ->
  analyze_account api maxf minv tag user_data w = (Ok None, w')
  /\ (forall users w0,
        fst (filter_influencers api users maxf minv tag w0)
        <> Raise ZeroDivisionError).
Proof.
  intros Hfields Hfc Hget Hempty. split.
  - rewrite (analyze_account_fields _ _ _ _ _ _ _ _ _ _ Hfields).
    destruct (fc >? maxf) eqn:E; [apply Z.gtb_lt in E; lia |].
    unfold analyze_videos. rewrite (bind_Ok _ _ _ _ _ Hget).
    now rewrite Hempty.
  - intros users w0. apply filter_loop_never_divides.
Qed.

(** Every invocation of the video fetch leaves a trace in the world. *)
Lemma get_user_videos_changes_world api sec count cursor (w : world Net) :
  snd (get_user_videos api sec count cursor w) <> w.
Proof.
  intros Heq. pose proof (get_user_videos_calls api sec count cursor w) as Hcalls.
  rewrite Heq in Hcalls. apply (f_equal (@List.length request)) in Hcalls.
  rewrite length_app in Hcalls. simpl in Hcalls. lia.
Qed.

Lemma filter_loop_skip api maxf minv tag user_data before after :
  (forall w, analyze_account api maxf minv tag user_data w = (Ok None, w)) ->
  forall qualified (w : world Net),
    filter_loop api maxf minv tag (before ++ user_data :: after) qualified w =
    filter_loop api maxf minv tag (before ++ after) qualified w.
Proof.
  intros Hskip. induction before as [| u before IH]; intros qualified w; simpl.
  - unfold bind. now rewrite Hskip.
  - unfold bind.
    destruct (analyze_account api maxf minv tag u w) as [[found | e |] w'];
      [apply IH | reflexivity | reflexivity].
Qed.

(** C3. A candidate whose follower count exceeds the ceiling is rejected
    in the very world it was met in: no request is logged, so the video
    fetch is not invoked for it, and the whole filter behaves, result and
    world alike, as if the candidate were not in the list. *)
Theorem over_ceiling_rejected_without_fetch
  api maxf minv tag user_data user uname sec fc (w : world Net) :
  candidate_fields user_data = Ok (user, uname, sec, fc) ->
  fc > maxf ->
  analyze_account api maxf minv tag user_data w = (Ok None, w)
  /\ calls (snd (analyze_account api maxf minv tag user_data w)) = calls w
  /\ (forall before after w0,
        filter_influencers api (before ++ user_data :: after) maxf minv tag w0 =
        filter_influencers api (before ++ after) maxf minv tag w0).
Proof.
  intros Hfields Hfc.
  assert (Hskip : forall w1 : world Net,
             analyze_account api maxf minv tag user_data w1 = (Ok None, w1)).
  { intros w1. rewrite (analyze_account_fields _ _ _ _ _ _ _ _ _ _ Hfields).
    destruct (fc >? maxf) eqn:E; [reflexivity |].
    rewrite Z.gtb_ltb in E. apply Z.ltb_ge in E. lia. }
  split; [apply Hskip |]. split; [now rewrite Hskip |].
  intros before after w0. unfold filter_influencers.
  now apply filter_loop_skip.
Qed.

(** The fetch is issued only after the follower check has passed. *)
Lemma fetch_only_after_follower_check
  api maxf minv tag user_data (w : world Net) :
  calls (snd (analyze_account api maxf minv tag user_data w)) <> calls w ->
  exists user uname sec fc,
    candidate_fields user_data = Ok (user, uname, sec, fc) /\ fc <= maxf.
Proof.
  intros Hcalls. unfold analyze_account, bind, lift in Hcalls.
  destruct (candidate_fields user_data) as [[[[user uname] sec] fc] | e |] eqn:Hf;
    simpl in Hcalls; try (now elim Hcalls).
  exists user, uname, sec, fc. split; [reflexivity |].
  destruct (fc >? maxf) eqn:E; [now elim Hcalls |].
  rewrite Z.gtb_ltb in E. apply Z.ltb_ge in E. lia.
Qed.

Lemma analyze_videos_calls api minv tag user uname sec fc (w : world Net) :
  calls (snd (analyze_videos api minv tag user uname sec fc w)) =
  calls w ++ [videos_request api sec 30 0].
Proof.
  pose proof (get_user_videos_calls api sec 30 0 w) as Hcalls.
  unfold analyze_videos, bind.
  destruct (get_user_videos api sec 30 0 w) as [[videos | e |] w1];
    simpl in *; try exact Hcalls.
  destruct (py_truthy videos); simpl; [| exact Hcalls].
  unfold lift. destruct (average_views videos) as [avg | e |]; simpl; try exact Hcalls.
  destruct (meets_floor avg minv); simpl; [| exact Hcalls].
  destruct (influencer_data user uname sec fc avg tag); simpl; exact Hcalls.
Qed.


(** ** The average *)





Lemma influencer_data_avgViews user uname sec fc avg tag inf :
  influencer_data user uname sec fc avg tag = Ok inf ->
  avgViews inf = avg /\ niche inf = tag /\ username inf = uname
  /\ secUid inf = sec /\ followerCount inf = fc.
Proof.
  unfold influencer_data. intros H.
  repeat (apply obind_inv_Ok in H as (? & _ & H)).
  injection H as <-. repeat split.
Qed.





(** ** Deduplication in the aggregator *)

(** C5. The aggregator returns the values of the dict built from the
    accumulated records [all_users]: never more records than were
    accumulated, and under each identifier exactly one record, the last
    one in [all_users] carrying that identifier. *)
Theorem secUid_dedup_last_write_wins
  api keyword max_results all_users out (w w1 w2 : world Net) :
  search_loop (Z.to_nat max_results) api keyword max_results [] 0 w = (Ok all_users, w1) ->
  search_influencers_by_keyword api keyword max_results w = (Ok out, w2) ->
  (List.length out <= List.length all_users)%nat
  /\ forall k, filter (has_key user_secUid k) out =
               option_list (last_with_key user_secUid k all_users).
Proof.
  intros Hloop Hrun. unfold search_influencers_by_keyword in Hrun.
  rewrite (bind_Ok _ _ _ _ _ Hloop) in Hrun.
  unfold bind, lift, ret in Hrun.
  destruct (dict_comprehension user_secUid all_users) as [d | e |] eqn:Hd;
    try discriminate.
  injection Hrun as <- _.
  now apply dict_comprehension_last_write_wins.
Qed.

(** ** The orchestrator *)

(** What a round that accepts its candidate went through. *)
Lemma analyze_account_accepts api maxf minv tag user_data inf (w w2 : world Net) :
  analyze_account api maxf minv tag user_data w = (Ok (Some inf), w2) ->
  exists user uname sec fc videos avg w1,
    candidate_fields user_data = Ok (user, uname, sec, fc)
    /\ fc <= maxf
    /\ get_user_videos api sec 30 0 w = (Ok videos, w1)
    /\ py_truthy videos = true
    /\ average_views videos = Ok avg
    /\ meets_floor avg minv = true
    /\ influencer_data user uname sec fc avg tag = Ok inf
    /\ w2 = napped w1.
Proof.
  intros Hrun. unfold analyze_account in Hrun.
  apply bind_inv_Ok in Hrun as ([[[user uname] sec] fc] & w0 & Hfields & Hrun).
  unfold lift in Hfields. injection Hfields as Hfields <-.
  destruct (fc >? maxf) eqn:E; [discriminate |].
  rewrite Z.gtb_ltb in E. apply Z.ltb_ge in E.
  unfold analyze_videos in Hrun.
  apply bind_inv_Ok in Hrun as (videos & w1 & Hget & Hrun).
  destruct (py_truthy videos) eqn:Htruthy; simpl in Hrun; [| discriminate].
  apply bind_inv_Ok in Hrun as (avg & w1' & Havg & Hrun).
  unfold lift in Havg. injection Havg as Havg <-.
  apply bind_inv_Ok in Hrun as (found & w3 & Hfound & Hrun).
  unfold bind, sleep, ret in Hrun. injection Hrun as -> <-.
  destruct (meets_floor avg minv) eqn:Hfloor; [| discriminate].
  apply bind_inv_Ok in Hfound as (inf' & w4 & Hdata & Hret).
  unfold lift in Hdata. injection Hdata as Hdata <-.
  unfold ret in Hret. injection Hret as -> <-.
  exists user, uname, sec, fc, videos, avg, w1.
  repeat split; try assumption.
Qed.


Lemma keywords_loop_acc api maxf minv rpk keywords :
  forall acc (w : world Net),
    keywords_loop api maxf minv rpk keywords acc w =
    match keywords_loop api maxf minv rpk keywords [] w with
    | (Ok found, w') => (Ok (acc ++ found), w')
    | (Raise e, w') => (Raise e, w')
    | (Diverge, w') => (Diverge, w')
    end.
Proof.
  induction keywords as [| keyword rest IH]; intros acc w; simpl.
  - unfold ret. now rewrite app_nil_r.
  - unfold bind.
    destruct (search_influencers_by_keyword api keyword rpk w) as [[users | e |] w1];
      try reflexivity.
    destruct (filter_influencers api users maxf minv keyword w1) as [[q | e |] w2];
      try reflexivity.
    rewrite (IH (acc ++ q)). rewrite (IH ([] ++ q)). simpl.
    destruct (keywords_loop api maxf minv rpk rest [] w2) as [[found | e |] w3];
      try reflexivity.
    now rewrite app_assoc.
Qed.

Lemma keywords_loop_app api maxf minv rpk ks1 ks2 :
  forall acc (w : world Net),
    keywords_loop api maxf minv rpk (ks1 ++ ks2) acc w =
    bind (keywords_loop api maxf minv rpk ks1 acc)
         (fun found => keywords_loop api maxf minv rpk ks2 found) w.
Proof.
  induction ks1 as [| keyword rest IH]; intros acc w; simpl.
  - reflexivity.
  - unfold bind in *.
    destruct (search_influencers_by_keyword api keyword rpk w) as [[users | e |] w1];
      try reflexivity.
    destruct (filter_influencers api users maxf minv keyword w1) as [[q | e |] w2];
      try reflexivity.
    apply IH.
Qed.




(** ** The adapter's recovery *)

(** X2. When the request raises a [RequestException], or the decoded body
    is an object, an array or a string that lacks the expected key
    ([userInfo], or [user_list] inside the [userInfo] entry of an object),
    [search_users] returns the empty list; and so does [get_user_videos]
    when the request raises a [RequestException] or the body lacks
    [itemList]. *)
Theorem adapter_recovers_failed_or_missing
  api keyword sec count offset cursor (w : world Net) :
  (search_failed_or_missing
     (fst (http_get (search_request api keyword count offset) (net w))) = true ->
   fst (search_users api keyword count offset w) = Ok (JList []))
  /\ (videos_failed_or_missing
        (fst (http_get (videos_request api sec count cursor) (net w))) = true ->
      fst (get_user_videos api sec count cursor w) = Ok (JList [])).
Proof.
  split.
  - intros Hsearch. unfold search_users, bind. rewrite get_world.
    destruct (fst (http_get _ _)) as [| data | u]; [reflexivity | | discriminate].
    simpl in Hsearch. unfold lift, search_users_body. simpl.
    destruct data as [| b | z | s | l | o]; simpl in *; try discriminate.
    + rewrite orb_false_r in Hsearch. now rewrite Hsearch.
    + rewrite orb_false_r in Hsearch. now rewrite Hsearch.
    + destruct (assoc "userInfo" o) as [info |]; [| reflexivity]. simpl in *.
      destruct info as [| b | z | s | l | o']; simpl in *; try discriminate.
      * now rewrite Hsearch.
      * now rewrite Hsearch.
      * destruct (assoc "user_list" o'); [discriminate | reflexivity].
  - intros Hvideos. unfold get_user_videos, bind. rewrite get_world.
    destruct (fst (http_get _ _)) as [| data | u]; [reflexivity | | discriminate].
    simpl in Hvideos. unfold lift, user_videos_body. simpl.
    destruct data as [| b | z | s | l | o]; simpl in *; try discriminate.
    + now rewrite Hvideos.
    + now rewrite Hvideos.
    + destruct (assoc "itemList" o); [discriminate | reflexivity].
Qed.

(** ** The aggregator's loop *)

Lemma obind_not_diverge {A B : Type} (c : outcome A) (k : A -> outcome B) :
  c <> Diverge -> (forall a, k a <> Diverge) -> obind c k <> Diverge.
Proof.
  intros Hc Hk. destruct c as [a | e |]; simpl;
    [apply Hk | discriminate | now elim Hc].
Qed.

Lemma py_contains_not_diverge k j : py_contains k j <> Diverge.
Proof. destruct j; discriminate. Qed.

Lemma py_getitem_not_diverge j k : py_getitem j k <> Diverge.
Proof. destruct j; simpl; try discriminate. destruct (assoc k o); discriminate. Qed.

Lemma search_users_body_not_diverge data : search_users_body data <> Diverge.
Proof.
  unfold search_users_body.
  apply obind_not_diverge; [apply py_contains_not_diverge | intros has_info].
  destruct has_info; simpl; [| discriminate].
  apply obind_not_diverge; [apply py_getitem_not_diverge | intros info].
  apply obind_not_diverge; [apply py_contains_not_diverge | intros has_list].
  destruct has_list; simpl; [| discriminate].
  apply obind_not_diverge; [apply py_getitem_not_diverge | intros info'].
  apply py_getitem_not_diverge.
Qed.

Lemma search_users_not_diverge api keyword count offset (w : world Net) :
  fst (search_users api keyword count offset w) <> Diverge.
Proof.
  unfold search_users, bind. rewrite get_world.
  destruct (fst (http_get _ _)) as [| data | u]; simpl;
    [discriminate | | discriminate].
  apply search_users_body_not_diverge.
Qed.

(** The loop returns: with at least [max_results - len(all_users)] rounds
    of fuel it never runs dry. *)
Lemma search_loop_terminates api keyword max_results fuel :
  forall all_users offset (w : world Net),
    max_results <= Z.of_nat fuel + Z.of_nat (List.length all_users) ->
    fst (search_loop fuel api keyword max_results all_users offset w) <> Diverge.
Proof.
  induction fuel as [| fuel IH]; intros all_users offset w Hfuel; simpl.
  - destruct (Z.of_nat (List.length all_users) <? max_results) eqn:E;
      [apply Z.ltb_lt in E; lia | discriminate].
  - destruct (Z.of_nat (List.length all_users) <? max_results) eqn:E;
      [| discriminate].
    pose proof (search_users_not_diverge api keyword batch_size offset w) as Hsearch.
    unfold bind.
    destruct (search_users api keyword batch_size offset w) as [[users | e |] w1];
      simpl in Hsearch; simpl; [| discriminate | now elim Hsearch].
    destruct (py_truthy users) eqn:Htruthy; simpl; [| discriminate].
    unfold lift.
    destruct (py_iter users) as [items | e |] eqn:Hiter;
      [| discriminate | destruct users; discriminate].
    destruct (py_len users) as [n | e |] eqn:Hlen;
      [| discriminate | destruct users; discriminate].
    unfold sleep. apply IH.
    pose proof (py_truthy_iter _ _ Htruthy Hiter). rewrite length_app. lia.
Qed.

Lemma search_influencers_by_keyword_returns api keyword max_results (w : world Net) :
  fst (search_influencers_by_keyword api keyword max_results w) <> Diverge.
Proof.
  pose proof (search_loop_terminates api keyword max_results
                (Z.to_nat max_results) [] 0 w) as Hloop.
  unfold search_influencers_by_keyword, bind.
  destruct (search_loop _ _ _ _ _ _ w) as [[all_users | e |] w1]; simpl in *.
  - unfold lift.
    assert (Hd : forall (l : list json) d, dict_comprehension_from user_secUid l d <> Diverge).
    { induction l as [| x l IHl]; intros d; simpl; [discriminate |].
      apply obind_not_diverge; [| intros k; apply IHl].
      unfold user_secUid.
      apply obind_not_diverge; [apply py_getitem_not_diverge | intros u].
      apply obind_not_diverge; [apply py_getitem_not_diverge | intros s].
      destruct s; discriminate. }
    specialize (Hd all_users []). unfold dict_comprehension.
    destruct (dict_comprehension_from user_secUid all_users []); simpl;
      [discriminate | discriminate | now elim Hd].
  - discriminate.
  - apply Hloop. simpl. lia.
Qed.

Section PageBound.

(** A platform that never serves more than [page_max] items per search
    page: [healthy] holds of the network at the start and is kept by every
    search call. *)
Variable healthy : Net -> Prop.
Variable page_max : nat.
Variable api : TikTokAPI.
Variable keyword : string.

Hypothesis healthy_search :
  forall offset (w : world Net),
    healthy (net w) ->
    healthy (net (snd (search_users api keyword batch_size offset w)))
    /\ forall users items,
         fst (search_users api keyword batch_size offset w) = Ok users ->
         py_iter users = Ok items ->
         (List.length items <= page_max)%nat.

Lemma search_loop_length max_results fuel :
  forall all_users offset (w w' : world Net) out,
    healthy (net w) ->
    search_loop fuel api keyword max_results all_users offset w = (Ok out, w') ->
    Z.of_nat (List.length out)
    <= Z.max (Z.of_nat (List.length all_users)) (max_results - 1 + Z.of_nat page_max).
Proof.
  induction fuel as [| fuel IH]; intros all_users offset w w' out Hw Hrun;
    simpl in Hrun;
    destruct (Z.of_nat (List.length all_users) <? max_results) eqn:E;
    try discriminate;
    try (unfold ret in Hrun; injection Hrun as <- _; lia).
  apply Z.ltb_lt in E.
  destruct (healthy_search offset w Hw) as [Hnext Hpage].
  unfold bind in Hrun.
  destruct (search_users api keyword batch_size offset w) as [[users | e |] w1];
    try discriminate. simpl in Hnext, Hpage.
  destruct (py_truthy users); simpl in Hrun;
    [| unfold ret in Hrun; injection Hrun as <- _; lia].
  unfold lift in Hrun.
  destruct (py_iter users) as [items | e |] eqn:Hiter; try discriminate.
  destruct (py_len users) as [n | e |]; try discriminate.
  unfold sleep in Hrun.
  apply IH in Hrun; [| exact Hnext].
  specialize (Hpage users items eq_refl Hiter).
  rewrite length_app in Hrun. lia.
Qed.

(** X16. What does hold of the aggregator's result on a platform that
    serves at most [page_max] items per page: it has at most
    [max_results - 1 + page_max] records (none when that is negative). *)
Lemma search_result_below_cap_plus_page max_results (w w' : world Net) out :
  healthy (net w) ->
  search_influencers_by_keyword api keyword max_results w = (Ok out, w') ->
  Z.of_nat (List.length out) <= Z.max 0 (max_results - 1 + Z.of_nat page_max).
Proof.
  intros Hw Hrun. unfold search_influencers_by_keyword in Hrun.
  apply bind_inv_Ok in Hrun as (all_users & w1 & Hloop & Hrun).
  apply search_loop_length in Hloop; [| exact Hw]. simpl in Hloop.
  unfold bind, lift, ret in Hrun.
  destruct (dict_comprehension user_secUid all_users) as [d | e |] eqn:Hd;
    try discriminate.
  injection Hrun as <- _.
  apply dict_comprehension_last_write_wins in Hd as [Hlen _]. lia.
Qed.

End PageBound.

(** C8. If the first search call for a keyword returns an empty (falsy)
    value, the aggregator returns the empty list; the filter applied to it
    returns the empty list and leaves the world alone; a run of the
    orchestrator on that keyword alone returns the empty list; and inside
    a longer keyword list the keyword adds nothing to [all_influencers].
    When [results_per_keyword] is not positive the loop issues no call at
    all, with the same results. *)
Theorem first_page_empty_gives_empty
  keyword maxf minv ms_token rpk users (w w1 : world Net) :
  search_users (TikTokAPI_init ms_token) keyword batch_size 0 w = (Ok users, w1) ->
  py_truthy users = false ->
  search_influencers_by_keyword (TikTokAPI_init ms_token) keyword rpk w
  = (Ok [], if 0 <? rpk then w1 else w)
  /\ filter_influencers (TikTokAPI_init ms_token) [] maxf minv keyword
       (if 0 <? rpk then w1 else w)
     = (Ok [], if 0 <? rpk then w1 else w)
  /\ find_tiktok_influencers [keyword] maxf minv ms_token rpk w
     = (Ok [], if 0 <? rpk then w1 else w)
  /\ (forall rest all_influencers,
        keywords_loop (TikTokAPI_init ms_token) maxf minv rpk
          (keyword :: rest) all_influencers w
        = keywords_loop (TikTokAPI_init ms_token) maxf minv rpk
            rest all_influencers (if 0 <? rpk then w1 else w)).
Proof.
  intros Hsearch Hempty.
  assert (Hagg : search_influencers_by_keyword (TikTokAPI_init ms_token) keyword rpk w
                 = (Ok [], if 0 <? rpk then w1 else w)).
  { unfold search_influencers_by_keyword.
    destruct (0 <? rpk) eqn:E.
    - destruct (Z.to_nat rpk) as [| fuel] eqn:Hfuel;
        [apply Z.ltb_lt in E; lia |].
      simpl. rewrite E. unfold bind at 1. unfold bind at 1.
      rewrite Hsearch, Hempty. reflexivity.
    - destruct (Z.to_nat rpk) as [| fuel]; simpl; rewrite E; reflexivity. }
  split; [exact Hagg |]. split; [reflexivity |]. split.
  - unfold find_tiktok_influencers. simpl.
    unfold bind at 1. unfold bind at 1. rewrite Hagg. reflexivity.
  - intros rest all_influencers. simpl. unfold bind. rewrite Hagg.
    unfold filter_influencers. simpl. now rewrite app_nil_r.
Qed.

(** ** Determinism of the filter *)

Section Replay.

(** [related n1 n2]: the two network states answer alike, now and after
    any request. *)
Variable related : Net -> Net -> Prop.

Hypothesis related_answers :
  forall r n1 n2,
    related n1 n2 ->
    fst (http_get r n1) = fst (http_get r n2)
    /\ related (snd (http_get r n1)) (snd (http_get r n2)).

Lemma replays_ret {A : Type} (a : A) : replays related (ret a).
Proof. intros w1 w2 Hrel. now split. Qed.

Lemma replays_lift {A : Type} (o : outcome A) : replays related (lift o).
Proof. intros w1 w2 Hrel. now split. Qed.

Lemma replays_sleep : replays related sleep.
Proof. intros w1 w2 Hrel. now split. Qed.

Lemma replays_get r : replays related (get r).
Proof.
  intros w1 w2 Hrel. rewrite !get_world. simpl.
  destruct (related_answers r _ _ Hrel) as [Hfst Hsnd].
  split; [now rewrite Hfst | exact Hsnd].
Qed.

Lemma replays_bind {A B : Type} (c : M Net A) (k : A -> M Net B) :
  replays related c -> (forall a, replays related (k a)) -> replays related (bind c k).
Proof.
  intros Hc Hk w1 w2 Hrel. unfold bind.
  destruct (Hc w1 w2 Hrel) as [Hfst Hnet].
  destruct (c w1) as [o1 w1'], (c w2) as [o2 w2']. simpl in *. subst o2.
  destruct o1 as [a | e |]; [now apply Hk | now split | now split].
Qed.

Lemma replays_get_user_videos api sec count cursor :
  replays related (get_user_videos api sec count cursor).
Proof.
  unfold get_user_videos. apply replays_bind; [apply replays_get |].
  intros [| data | u]; [apply replays_ret | apply replays_lift | apply replays_lift].
Qed.

Lemma replays_analyze_account api maxf minv tag user_data :
  replays related (analyze_account api maxf minv tag user_data).
Proof.
  unfold analyze_account. apply replays_bind; [apply replays_lift |].
  intros [[[user uname] sec] fc].
  destruct (fc >? maxf); [apply replays_ret |].
  unfold analyze_videos.
  apply replays_bind; [apply replays_get_user_videos | intros videos].
  destruct (py_truthy videos); simpl; [| apply replays_ret].
  apply replays_bind; [apply replays_lift | intros avg].
  apply replays_bind.
  - destruct (meets_floor avg minv); [| apply replays_ret].
    apply replays_bind; [apply replays_lift | intros inf; apply replays_ret].
  - intros found. apply replays_bind; [apply replays_sleep | intros _; apply replays_ret].
Qed.

Lemma replays_filter_loop api maxf minv tag users :
  forall qualified, replays related (filter_loop api maxf minv tag users qualified).
Proof.
  induction users as [| user_data rest IH]; intros qualified; simpl.
  - apply replays_ret.
  - apply replays_bind; [apply replays_analyze_account | intros found; apply IH].
Qed.

(** C9. Two runs of the filter on the same candidate list, started on
    networks that answer alike, return the same outcome: the same accepted
    records in the same order, each with the same average. The call log
    and the pauses taken so far play no part. *)
Theorem filter_is_deterministic api users maxf minv tag (w1 w2 : world Net) :
  related (net w1) (net w2) ->
  fst (filter_influencers api users maxf minv tag w1) =
  fst (filter_influencers api users maxf minv tag w2).
Proof.
  intros Hrel. now apply (replays_filter_loop api maxf minv tag users [] w1 w2).
Qed.

End Replay.

End PipelineFacts.

(** Scenario D, run on a scripted network. *)
Lemma empty_fetch_rejected_before_average_witness :
  analyze_account (TikTokAPI_init None) 550000 40000 "tech"
    (sample_user "d" 100) (fresh scenario_d_script)
  = (Ok None,
     {| net := [];
        calls := [videos_request (TikTokAPI_init None) (JStr "sec-d") 30 0];
        naps := 0 |})
  /\ (forall users (w0 : world (list response)),
        fst (filter_influencers (TikTokAPI_init None) users 550000 40000 "tech" w0)
        <> Raise ZeroDivisionError).
Proof.
  apply (empty_fetch_rejected_before_average
           (TikTokAPI_init None) 550000 40000 "tech" (sample_user "d" 100)
           (JObj [ ("uniqueId", JStr "d"); ("secUid", JStr "sec-d");
                   ("nickname", JStr "d"); ("followerCount", JInt 100) ])
           (JStr "d") (JStr "sec-d") 100 (JList [])).
  - reflexivity.
  - lia.
  - reflexivity.
  - reflexivity.
Defined.

(** A candidate with 600000 followers under the default ceiling. *)
Lemma over_ceiling_rejected_without_fetch_witness :
  let api := TikTokAPI_init None in
  let w := fresh scenario_a_script in
  analyze_account api 550000 40000 "tech" (sample_user "big" 600000) w = (Ok None, w)
  /\ calls (snd (analyze_account api 550000 40000 "tech" (sample_user "big" 600000) w))
     = calls w
  /\ (forall before after (w0 : world (list response)),
        filter_influencers api (before ++ sample_user "big" 600000 :: after)
          550000 40000 "tech" w0 =
        filter_influencers api (before ++ after) 550000 40000 "tech" w0).
Proof.
  apply (over_ceiling_rejected_without_fetch
           (TikTokAPI_init None) 550000 40000 "tech" (sample_user "big" 600000)
           (JObj [ ("uniqueId", JStr "big"); ("secUid", JStr "sec-big");
                   ("nickname", JStr "big"); ("followerCount", JInt 600000) ])
           (JStr "big") (JStr "sec-big") 600000).
  - reflexivity.
  - lia.
Defined.




(** One page on which the identifier "sec-a" comes first and third: the
    third record takes the first one's place. *)
Lemma secUid_dedup_last_write_wins_witness :
  (List.length [ nth 2 duplicate_page JNull; sample_user "b" 200 ]
   <= List.length duplicate_page)%nat
  /\ forall k, filter (has_key user_secUid k)
                 [ nth 2 duplicate_page JNull; sample_user "b" 200 ] =
               option_list (last_with_key user_secUid k duplicate_page).
Proof.
  eapply (secUid_dedup_last_write_wins (TikTokAPI_init None) "tech" 50
            duplicate_page [ nth 2 duplicate_page JNull; sample_user "b" 200 ]
            (fresh duplicate_script)).
  - reflexivity.
  - reflexivity.
Defined.


(** C7, on the code. The platform answers with the JSON value [null]:
    the membership test on the body raises [TypeError], which neither
    adapter operation catches, where an object without the expected key
    is reported as an unexpected format and turned into the empty list. *)
Lemma adapter_raises_on_null_body :
  fst (search_users (TikTokAPI_init None) "tech" 30 0 (fresh null_body_script))
  = Raise TypeError
  /\ fst (get_user_videos (TikTokAPI_init None) (JStr "sec-a") 30 0
            (fresh null_body_script))
     = Raise TypeError.
Proof. split; reflexivity. Qed.

(** A JSON object with none of the expected keys. *)
Lemma adapter_recovers_failed_or_missing_witness :
  (search_failed_or_missing
     (fst (http_get (search_request (TikTokAPI_init None) "tech" 30 0)
             (net (fresh empty_object_script)))) = true
   /\ fst (search_users (TikTokAPI_init None) "tech" 30 0 (fresh empty_object_script))
      = Ok (JList []))
  /\ (videos_failed_or_missing
        (fst (http_get (videos_request (TikTokAPI_init None) (JStr "sec-a") 30 0)
                (net (fresh empty_object_script)))) = true
      /\ fst (get_user_videos (TikTokAPI_init None) (JStr "sec-a") 30 0
                (fresh empty_object_script))
         = Ok (JList [])).
Proof.
  split; (split; [reflexivity |]).
  - apply (proj1 (adapter_recovers_failed_or_missing
                    (TikTokAPI_init None) "tech" (JStr "sec-a") 30 0 0
                    (fresh empty_object_script))).
    reflexivity.
  - apply (proj2 (adapter_recovers_failed_or_missing
                    (TikTokAPI_init None) "tech" (JStr "sec-a") 30 0 0
                    (fresh empty_object_script))).
    reflexivity.
Defined.

(** Scenario C on a scripted network. *)
Lemma first_page_empty_gives_empty_witness :
  search_influencers_by_keyword (TikTokAPI_init None) "tech" 50
    (fresh scenario_c_script)
  = (Ok [], {| net := [];
               calls := [search_request (TikTokAPI_init None) "tech" 30 0];
               naps := 0 |})
  /\ filter_influencers (TikTokAPI_init None) [] 550000 40000 "tech"
       {| net := [];
          calls := [search_request (TikTokAPI_init None) "tech" 30 0];
          naps := 0 |}
     = (Ok [], {| net := [];
                  calls := [search_request (TikTokAPI_init None) "tech" 30 0];
                  naps := 0 |})
  /\ find_tiktok_influencers ["tech"] 550000 40000 None 50 (fresh scenario_c_script)
     = (Ok [], {| net := [];
                  calls := [search_request (TikTokAPI_init None) "tech" 30 0];
                  naps := 0 |})
  /\ (forall rest all_influencers,
        keywords_loop (TikTokAPI_init None) 550000 40000 50
          ("tech" :: rest) all_influencers (fresh scenario_c_script)
        = keywords_loop (TikTokAPI_init None) 550000 40000 50
            rest all_influencers
            {| net := [];
               calls := [search_request (TikTokAPI_init None) "tech" 30 0];
               naps := 0 |}).
Proof.
  apply (first_page_empty_gives_empty "tech" 550000 40000 None 50 (JList [])
           (fresh scenario_c_script)
           {| net := [];
              calls := [search_request (TikTokAPI_init None) "tech" 30 0];
              naps := 0 |}).
  - reflexivity.
  - reflexivity.
Defined.

(** The filter run a second time, in the world the first run left behind,
    against a server whose answers depend on the request alone. *)
Lemma filter_is_deterministic_witness :
  fst (filter_influencers (TikTokAPI_init None)
         [sample_user "a" 100; sample_user "b" 200] 550000 40000 "tech"
         (fresh scenario_a_server))
  = fst (filter_influencers (TikTokAPI_init None)
           [sample_user "a" 100; sample_user "b" 200] 550000 40000 "tech"
           (snd (filter_influencers (TikTokAPI_init None)
                   [sample_user "a" 100; sample_user "b" 200] 550000 40000 "tech"
                   (fresh scenario_a_server)))).
Proof.
  apply (filter_is_deterministic (@eq (request -> response))).
  - intros r n1 n2 Heq. rewrite Heq. split; reflexivity.
  - reflexivity.
Defined.

(** C4, on the code. With the default cap of 50 results per keyword and a
    platform that serves full pages of 30 distinct accounts, the loop stops
    after the second page and the aggregator hands back 60 candidates. *)
Theorem search_overshoots_max_results :
  exists out w',
    search_influencers_by_keyword (TikTokAPI_init None) "tech" 50
      (fresh full_pages_script) = (Ok out, w')
    /\ List.length out = 60%nat
    /\ Z.of_nat (List.length out) > 50
    /\ List.length (calls w') = 2%nat.
Proof.
  eexists. eexists. split; [vm_compute; reflexivity |].
  split; [reflexivity |]. split; [reflexivity | reflexivity].
Qed.

(** * Further properties *)

(** ** Strings *)

Lemma length_append (s1 s2 : string) :
  String.length (s1 ++ s2) = (String.length s1 + String.length s2)%nat.
Proof. induction s1 as [| c s1 IH]; simpl; [reflexivity | now rewrite IH]. Qed.

Lemma length_list_ascii_of_string (s : string) :
  List.length (list_ascii_of_string s) = String.length s.
Proof. induction s as [| c s IH]; simpl; [reflexivity | now rewrite IH]. Qed.

Lemma prefix_length (p s : string) :
  String.prefix p s = true -> (String.length p <= String.length s)%nat.
Proof.
  revert s. induction p as [| a p IH]; intros s Hp; simpl; [lia |].
  destruct s as [| b s]; [discriminate |].
  change (String.prefix (String a p) (String b s))
    with (if ascii_dec a b then String.prefix p s else false) in Hp.
  destruct (ascii_dec a b); [| discriminate].
  specialize (IH s Hp). simpl. lia.
Qed.

Lemma prefix_cons a p b s :
  String.prefix (String a p) (String b s) =
  if ascii_dec a b then String.prefix p s else false.
Proof. reflexivity. Qed.

Lemma is_substring_cons p c s :
  is_substring p (String c s) =
  if String.prefix p (String c s) then true else is_substring p s.
Proof. reflexivity. Qed.

Lemma str_replace_from_cons old new c s :
  str_replace_from old new 0 (String c s) =
  if String.prefix old (String c s)
  then (new ++ str_replace_from old new (String.length old - 1) s)%string
  else String c (str_replace_from old new 0 s).
Proof. reflexivity. Qed.

(** Where [old] does not occur, nothing is replaced. *)
Lemma str_replace_from_absent old new s :
  is_substring old s = false -> str_replace_from old new 0 s = s.
Proof.
  induction s as [| c s IH]; intros Habsent; [reflexivity |].
  rewrite is_substring_cons in Habsent. rewrite str_replace_from_cons.
  destruct (String.prefix old (String c s)); [discriminate |].
  now rewrite (IH Habsent).
Qed.

Lemma csv_replaced_differs s :
  is_substring ".csv" s = true -> str_replace_from ".csv" ".txt" 0 s <> s.
Proof.
  induction s as [| c s IH]; intros Hocc; [discriminate |].
  rewrite is_substring_cons in Hocc. rewrite str_replace_from_cons.
  destruct (String.prefix ".csv" (String c s)) eqn:Hp.
  - rewrite prefix_cons in Hp.
    destruct (ascii_dec "." c) as [<- |]; [| discriminate].
    destruct s as [| c2 s]; [discriminate |].
    rewrite prefix_cons in Hp.
    destruct (ascii_dec "c" c2) as [<- |]; [| discriminate].
    simpl. discriminate.
  - intros Heq. injection Heq as Heq. now apply IH.
Qed.

Lemma csv_replaced_length s :
  forall skip,
    (skip <= String.length s)%nat ->
    String.length (str_replace_from ".csv" ".txt" skip s)
    = (String.length s - skip)%nat.
Proof.
  induction s as [| c s IH]; intros skip Hskip; [reflexivity |].
  destruct skip as [| skip].
  - rewrite str_replace_from_cons.
    destruct (String.prefix ".csv" (String c s)) eqn:Hp.
    + apply prefix_length in Hp. simpl in Hp.
      rewrite length_append. rewrite IH by (simpl; lia). simpl. lia.
    + simpl. rewrite IH by lia. lia.
  - simpl in Hskip. simpl. apply IH. lia.
Qed.

(** X1. The text summary is written to the table's own path exactly when
    the output name does not contain ".csv"; and the summary's path always
    has the length of the output name. *)
Theorem txt_output_same_path_iff (output : string) :
  (txt_output output = output <-> is_substring ".csv" output = false)
  /\ String.length (txt_output output) = String.length output.
Proof.
  unfold txt_output, str_replace. split; [split |].
  - intros Hsame. destruct (is_substring ".csv" output) eqn:Hocc; [| reflexivity].
    now elim (csv_replaced_differs output Hocc).
  - apply str_replace_from_absent.
  - rewrite csv_replaced_length by lia. lia.
Qed.

(** ** More on dict comprehensions *)

Section FurtherDicts.

Context {A : Type} (keyf : A -> outcome py_key).

Lemma dict_comprehension_from_In l :
  forall d d' k v,
    dict_comprehension_from keyf l d = Ok d' ->
    In (k, v) d' -> In (k, v) d \/ In v l.
Proof.
  induction l as [| x l IH]; simpl; intros d d' k v Hrun Hin.
  - injection Hrun as <-. now left.
  - apply obind_inv_Ok in Hrun as (kx & _ & Hrun).
    destruct (IH _ _ _ _ Hrun Hin) as [Hd | Hl]; [| right; now right].
    apply dict_set_In in Hd as [[_ ->] | Hd]; [right; now left | now left].
Qed.

(** The values of the comprehension are elements of the input. *)
Lemma dict_comprehension_values_In l d v :
  dict_comprehension keyf l = Ok d -> In v (dict_values d) -> In v l.
Proof.
  intros Hrun Hin. unfold dict_values in Hin.
  apply in_map_iff in Hin as ([k v'] & Heq & Hin). simpl in Heq. subst v'.
  destruct (dict_comprehension_from_In _ _ _ _ _ Hrun Hin) as [[] | Hl]. exact Hl.
Qed.

(** The first element without a key decides the outcome. *)
Lemma dict_comprehension_from_first_error before bad after e :
  Forall (fun x => exists k, keyf x = Ok k) before ->
  keyf bad = Raise e ->
  forall d, dict_comprehension_from keyf (before ++ bad :: after) d = Raise e.
Proof.
  intros Hbefore Hbad. induction Hbefore as [| x before (k & Hk) _ IH]; intros d; simpl.
  - now rewrite Hbad.
  - rewrite Hk. simpl. apply IH.
Qed.

Lemma key_eqb_sym a b : key_eqb a b = key_eqb b a.
Proof.
  destruct (key_eqb a b) eqn:E.
  - apply key_eqb_eq in E. subst. now rewrite key_eqb_refl.
  - destruct (key_eqb b a) eqn:E'; [| reflexivity].
    apply key_eqb_eq in E'. subst. now rewrite key_eqb_refl in E.
Qed.

Lemma dict_set_keys_eq k v (d : pydict A) :
  map fst (dict_set k v d) =
  if mem_key k (map fst d) then map fst d else map fst d ++ [k].
Proof.
  unfold mem_key. induction d as [| [k' v'] d IH]; simpl; [reflexivity |].
  destruct (key_eqb k' k) eqn:E; simpl; [reflexivity |].
  rewrite IH. now destruct (existsb (fun k'0 => key_eqb k'0 k) (map fst d)).
Qed.

Lemma filter_filter_absorb {B : Type} (f g : B -> bool) (l : list B) :
  (forall x, f x = true -> g x = true) ->
  filter f (filter g l) = filter f l.
Proof.
  intros Hfg. induction l as [| x l IH]; simpl; [reflexivity |].
  destruct (g x) eqn:Hg; simpl.
  - now rewrite IH.
  - destruct (f x) eqn:Hf; [| exact IH].
    rewrite (Hfg x Hf) in Hg. discriminate.
Qed.

Lemma filter_filter_and {B : Type} (f g : B -> bool) (l : list B) :
  filter f (filter g l) = filter (fun x => g x && f x) l.
Proof.
  induction l as [| x l IH]; simpl; [reflexivity |].
  destruct (g x); simpl; [| exact IH].
  destruct (f x); now rewrite IH.
Qed.

Lemma mem_key_true k ks x :
  mem_key k ks = true -> mem_key x ks = false -> key_eqb k x = false.
Proof.
  intros Hk Hx. destruct (key_eqb k x) eqn:E; [| reflexivity].
  apply key_eqb_eq in E. subst. congruence.
Qed.

Lemma dict_comprehension_from_keys l :
  forall d d',
    dict_comprehension_from keyf l d = Ok d' ->
    map fst d' =
    map fst d ++ filter (fun k => negb (mem_key k (map fst d)))
                   (first_seen (keys_of keyf l)).
Proof.
  induction l as [| x l IH]; simpl; intros d d' Hrun.
  - injection Hrun as <-. now rewrite app_nil_r.
  - apply obind_inv_Ok in Hrun as (k & Hk & Hrun). rewrite Hk.
    rewrite (IH _ _ Hrun), dict_set_keys_eq. simpl.
    destruct (mem_key k (map fst d)) eqn:Hmem; simpl.
    + f_equal. symmetry. apply filter_filter_absorb.
      intros y Hy. apply negb_true_iff in Hy. apply negb_true_iff.
      now apply (mem_key_true k (map fst d)).
    + rewrite <- app_assoc. simpl. f_equal. f_equal.
      rewrite filter_filter_and. apply filter_ext. intros y.
      unfold mem_key. rewrite existsb_app. simpl.
      rewrite orb_false_r, negb_orb. apply andb_comm.
Qed.

(** The comprehension keeps each key at the place where it first
    appeared, with a value that carries that key. *)
Lemma dict_comprehension_first_seen l d :
  dict_comprehension keyf l = Ok d ->
  Forall2 (fun v k => keyf v = Ok k) (dict_values d) (first_seen (keys_of keyf l)).
Proof.
  unfold dict_comprehension. intros Hrun.
  pose proof (dict_comprehension_from_keys _ _ _ Hrun) as Hkeys. simpl in Hkeys.
  assert (Hall : forall (ks : list py_key), filter (fun _ => true) ks = ks).
  { induction ks as [| k ks IHks]; simpl; [reflexivity | now rewrite IHks]. }
  rewrite Hall in Hkeys. rewrite <- Hkeys.
  assert (Hwk : well_keyed keyf d).
  { apply (dict_comprehension_from_well_keyed keyf _ _ _ Hrun).
    split; [intros ? ? [] | constructor]. }
  destruct Hwk as [Hfiled _]. unfold dict_values.
  clear Hrun Hkeys. induction d as [| [k v] d IHd]; simpl; constructor.
  - apply Hfiled. now left.
  - apply IHd. intros k0 v0 Hin. apply Hfiled. now right.
Qed.

End FurtherDicts.

Section FurtherPipelineFacts.

Context {builtins : PyBuiltins} {Net : Type} {transport : Transport Net}.

(** ** What the adapter can raise *)

Lemma search_users_body_ok_or_type_error data :
  ok_or_type_error (search_users_body data).
Proof.
  unfold search_users_body.
  destruct data as [| b | z | s | l | o]; simpl; try exact I.
  - destruct (is_substring "userInfo" s); exact I.
  - destruct (existsb (is_str "userInfo") l); exact I.
  - destruct (assoc "userInfo" o) as [info |]; simpl; [| exact I].
    destruct info as [| b | z | s | l | o']; simpl; try exact I.
    + destruct (is_substring "user_list" s); exact I.
    + destruct (existsb (is_str "user_list") l); exact I.
    + destruct (assoc "user_list" o'); exact I.
Qed.

Lemma user_info_body_ok_or_type_error data :
  ok_or_type_error (user_info_body data).
Proof.
  unfold user_info_body.
  destruct data as [| b | z | s | l | o]; simpl; try exact I.
  - destruct (is_substring "userInfo" s); exact I.
  - destruct (existsb (is_str "userInfo") l); exact I.
  - destruct (assoc "userInfo" o); exact I.
Qed.

Lemma user_videos_body_ok_or_type_error data :
  ok_or_type_error (user_videos_body data).
Proof.
  unfold user_videos_body.
  destruct data as [| b | z | s | l | o]; simpl; try exact I.
  - destruct (is_substring "itemList" s); exact I.
  - destruct (existsb (is_str "itemList") l); exact I.
  - destruct (assoc "itemList" o); exact I.
Qed.

Lemma type_error_or_uncaught {A : Type} (resp : response) (o : outcome A) :
  ok_or_type_error o -> value_type_error_or_uncaught resp o.
Proof. destruct o as [a | [] |]; simpl; auto; contradiction. Qed.

(** X3. An adapter call returns a value, or raises [TypeError], or passes
    on the exception that [requests] raised outside [RequestException]
    for this very request. Inspecting the body never raises [KeyError]:
    the membership test always comes before the subscript. *)
Theorem adapter_raises_TypeError_or_uncaught
  api keyword handle sec count offset cursor (w : world Net) :
  value_type_error_or_uncaught
    (fst (http_get (search_request api keyword count offset) (net w)))
    (fst (search_users api keyword count offset w))
  /\ value_type_error_or_uncaught
       (fst (http_get (user_info_request api handle) (net w)))
       (fst (get_user_info api handle w))
  /\ value_type_error_or_uncaught
       (fst (http_get (videos_request api sec count cursor) (net w)))
       (fst (get_user_videos api sec count cursor w)).
Proof.
  repeat split.
  - unfold search_users, bind. rewrite get_world.
    destruct (fst (http_get _ _)) as [| data | u]; simpl; [exact I | |].
    + apply type_error_or_uncaught, search_users_body_ok_or_type_error.
    + right. now exists u.
  - unfold get_user_info, bind. rewrite get_world.
    destruct (fst (http_get _ _)) as [| data | u]; simpl; [exact I | |].
    + apply type_error_or_uncaught, user_info_body_ok_or_type_error.
    + right. now exists u.
  - unfold get_user_videos, bind. rewrite get_world.
    destruct (fst (http_get _ _)) as [| data | u]; simpl; [exact I | |].
    + apply type_error_or_uncaught, user_videos_body_ok_or_type_error.
    + right. now exists u.
Qed.

(** ** The requests the pipeline issues *)

Lemma emits_ret {A : Type} (P : request -> Prop) (a : A) : emits P (@ret Net A a).
Proof. intros w. exists []. simpl. now rewrite app_nil_r. Qed.

Lemma emits_lift {A : Type} (P : request -> Prop) (o : outcome A) :
  emits P (@lift Net A o).
Proof. intros w. exists []. simpl. now rewrite app_nil_r. Qed.

Lemma emits_sleep (P : request -> Prop) : emits P (@sleep Net).
Proof. intros w. exists []. simpl. now rewrite app_nil_r. Qed.

Lemma emits_get (P : request -> Prop) r : P r -> emits P (get r).
Proof.
  intros Hr w. exists [r]. rewrite get_world. simpl.
  split; [reflexivity | now constructor].
Qed.

Lemma emits_bind {A B : Type} (P : request -> Prop) (c : M Net A) (k : A -> M Net B) :
  emits P c -> (forall a, emits P (k a)) -> emits P (bind c k).
Proof.
  intros Hc Hk w. destruct (Hc w) as (l1 & Hl1 & HP1). unfold bind.
  destruct (c w) as [[a | e |] w1]; simpl in *.
  - destruct (Hk a w1) as (l2 & Hl2 & HP2). exists (l1 ++ l2).
    rewrite Hl2, Hl1, app_assoc. split; [reflexivity | now apply Forall_app].
  - now exists l1.
  - now exists l1.
Qed.

Lemma emits_weaken {A : Type} (P Q : request -> Prop) (c : M Net A) :
  (forall r, P r -> Q r) -> emits P c -> emits Q c.
Proof.
  intros HPQ Hc w. destruct (Hc w) as (l & Hl & HP). exists l.
  split; [exact Hl |]. eapply Forall_impl; [exact HPQ | exact HP].
Qed.

Lemma emits_search_users api keyword count offset :
  emits (fun r => r = search_request api keyword count offset)
        (search_users api keyword count offset).
Proof.
  unfold search_users. apply emits_bind; [now apply emits_get |].
  intros [| data | u]; [apply emits_ret | apply emits_lift | apply emits_lift].
Qed.

Lemma emits_get_user_videos api sec count cursor :
  emits (fun r => r = videos_request api sec count cursor)
        (get_user_videos api sec count cursor).
Proof.
  unfold get_user_videos. apply emits_bind; [now apply emits_get |].
  intros [| data | u]; [apply emits_ret | apply emits_lift | apply emits_lift].
Qed.

Lemma emits_search_loop api keyword max_results fuel :
  forall all_users offset,
    emits (fun r => exists off, r = search_request api keyword batch_size off)
          (search_loop fuel api keyword max_results all_users offset).
Proof.
  induction fuel as [| fuel IH]; intros all_users offset; simpl;
    destruct (Z.of_nat (List.length all_users) <? max_results);
    try apply emits_ret.
  - intros w. exists []. simpl. now rewrite app_nil_r.
  - apply emits_bind.
    + eapply emits_weaken; [| apply emits_search_users].
      intros r ->. now exists offset.
    + intros users. destruct (py_truthy users); simpl; [| apply emits_ret].
      apply emits_bind; [apply emits_lift | intros items].
      apply emits_bind; [apply emits_lift | intros n].
      apply emits_bind; [apply emits_sleep | intros _]. apply IH.
Qed.

Lemma emits_search_influencers_by_keyword api keyword max_results :
  emits (fun r => exists off, r = search_request api keyword batch_size off)
        (search_influencers_by_keyword api keyword max_results).
Proof.
  unfold search_influencers_by_keyword.
  apply emits_bind; [apply emits_search_loop | intros all_users].
  apply emits_bind; [apply emits_lift | intros d; apply emits_ret].
Qed.

Lemma emits_analyze_account api maxf minv tag user_data :
  emits (fun r => exists sec, r = videos_request api sec 30 0)
        (analyze_account api maxf minv tag user_data).
Proof.
  unfold analyze_account. apply emits_bind; [apply emits_lift |].
  intros [[[user uname] sec] fc].
  destruct (fc >? maxf); [apply emits_ret |].
  unfold analyze_videos. apply emits_bind.
  - eapply emits_weaken; [| apply emits_get_user_videos].
    intros r ->. now exists sec.
  - intros videos. destruct (py_truthy videos); simpl; [| apply emits_ret].
    apply emits_bind; [apply emits_lift | intros avg].
    apply emits_bind.
    + destruct (meets_floor avg minv); [| apply emits_ret].
      apply emits_bind; [apply emits_lift | intros inf; apply emits_ret].
    + intros found. apply emits_bind; [apply emits_sleep | intros _; apply emits_ret].
Qed.

Lemma emits_filter_loop api maxf minv tag users :
  forall qualified,
    emits (fun r => exists sec, r = videos_request api sec 30 0)
          (filter_loop api maxf minv tag users qualified).
Proof.
  induction users as [| user_data rest IH]; intros qualified; simpl.
  - apply emits_ret.
  - apply emits_bind; [apply emits_analyze_account | intros found; apply IH].
Qed.

Lemma emits_keywords_loop api maxf minv rpk keywords :
  forall all_influencers,
    emits (fun r =>
             (exists keyword off,
                 In keyword keywords /\ r = search_request api keyword batch_size off)
             \/ (exists sec, r = videos_request api sec 30 0))
          (keywords_loop api maxf minv rpk keywords all_influencers).
Proof.
  induction keywords as [| keyword rest IH]; intros all_influencers; simpl.
  - apply emits_ret.
  - apply emits_bind.
    + eapply emits_weaken; [| apply emits_search_influencers_by_keyword].
      intros r (off & ->). left. exists keyword, off. split; [now left | reflexivity].
    + intros users. apply emits_bind.
      * eapply emits_weaken; [| apply emits_filter_loop].
        intros r Hr. now right.
      * intros qualified. eapply emits_weaken; [| apply IH].
        intros r [(kw & off & Hin & ->) | Hr]; [| now right].
        left. exists kw, off. split; [now right | reflexivity].
Qed.

(** X4. Every request a run of the orchestrator adds to the log is either
    a user search for one of the given keywords with page size 30, or a
    video-list request with count 30 and cursor 0, both built on the
    client made from [ms_token]; the log itself is only extended. The
    user-detail endpoint is never called. *)
Theorem pipeline_requests_search_or_videos
  keywords maxf minv ms_token rpk (w : world Net) :
  exists l,
    calls (snd (find_tiktok_influencers keywords maxf minv ms_token rpk w))
    = calls w ++ l
    /\ Forall (fun r =>
                 (exists keyword off,
                     In keyword keywords
                     /\ r = search_request (TikTokAPI_init ms_token) keyword 30 off)
                 \/ (exists sec, r = videos_request (TikTokAPI_init ms_token) sec 30 0))
              l.
Proof.
  revert w. change (emits (fun r =>
    (exists keyword off,
        In keyword keywords
        /\ r = search_request (TikTokAPI_init ms_token) keyword batch_size off)
    \/ (exists sec, r = videos_request (TikTokAPI_init ms_token) sec 30 0))
    (find_tiktok_influencers keywords maxf minv ms_token rpk)).
  unfold find_tiktok_influencers.
  apply emits_bind; [apply emits_keywords_loop | intros all_influencers].
  apply emits_bind; [apply emits_lift | intros d; apply emits_ret].
Qed.

(** ** The aggregator's cursors *)

Lemma search_users_naps api keyword count offset (w : world Net) :
  naps (snd (search_users api keyword count offset w)) = naps w.
Proof.
  unfold search_users, bind. rewrite get_world.
  destruct (fst (http_get _ _)) as [| data | u]; reflexivity.
Qed.

Lemma py_len_iter j items :
  py_iter j = Ok items -> py_len j = Ok (List.length items).
Proof.
  destruct j; simpl; intros Hiter; try discriminate; injection Hiter as <-.
  - now rewrite length_map, length_list_ascii_of_string.
  - reflexivity.
  - now rewrite length_map.
Qed.

Lemma cursors_weaken hi offs :
  forall lo lo', lo <= lo' -> cursors lo' hi offs -> cursors lo hi offs.
Proof.
  destruct offs as [| o rest]; simpl; intros lo lo' Hlo Hc; [exact I |].
  destruct Hc as [Ho Hrest]. split; [lia | exact Hrest].
Qed.

Lemma search_loop_cursors api keyword max_results fuel :
  forall all_users (w : world Net),
  exists offs,
    let run := search_loop fuel api keyword max_results all_users
                 (Z.of_nat (List.length all_users)) w in
    calls (snd run) = calls w ++ map (search_request api keyword batch_size) offs
    /\ cursors (Z.of_nat (List.length all_users)) max_results offs
    /\ (forall o rest, offs = o :: rest -> o = Z.of_nat (List.length all_users))
    /\ (List.length offs <= fuel)%nat
    /\ (naps (snd run) <= naps w + List.length offs)%nat
    /\ (naps w + List.length offs <= naps (snd run) + 1)%nat
    /\ ((0 < fuel)%nat -> Z.of_nat (List.length all_users) < max_results -> offs <> []).
Proof.
  induction fuel as [| fuel IH]; intros all_users w; simpl.
  - exists []. destruct (Z.of_nat (List.length all_users) <? max_results); simpl;
      rewrite app_nil_r; repeat split; try lia; try discriminate.
  - destruct (Z.of_nat (List.length all_users) <? max_results) eqn:E.
    2:{ exists []. simpl. rewrite app_nil_r.
        apply Z.ltb_ge in E. repeat split; try lia; try discriminate. }
    apply Z.ltb_lt in E.
    pose proof (search_users_calls api keyword batch_size
                  (Z.of_nat (List.length all_users)) w) as Hcalls.
    pose proof (search_users_naps api keyword batch_size
                  (Z.of_nat (List.length all_users)) w) as Hnaps.
    unfold bind.
    destruct (search_users api keyword batch_size
                (Z.of_nat (List.length all_users)) w) as [[users | e |] w1];
      simpl in Hcalls, Hnaps.
    2,3: exists [Z.of_nat (List.length all_users)]; simpl;
         repeat split; try lia; try discriminate; try assumption;
         intros o rest Heq; now injection Heq as <- _.
    destruct (py_truthy users) eqn:Htruthy; simpl.
    2:{ exists [Z.of_nat (List.length all_users)]. simpl.
        repeat split; try lia; try discriminate; try assumption.
        intros o rest Heq. now injection Heq as <- _. }
    unfold lift.
    destruct (py_iter users) as [items | e |] eqn:Hiter.
    2,3: exists [Z.of_nat (List.length all_users)]; simpl;
         repeat split; try lia; try discriminate; try assumption;
         intros o rest Heq; now injection Heq as <- _.
    rewrite (py_len_iter _ _ Hiter).
    pose proof (py_truthy_iter _ _ Htruthy Hiter) as Hpos.
    unfold sleep.
    replace (Z.of_nat (List.length all_users) + Z.of_nat (List.length items))
      with (Z.of_nat (List.length (all_users ++ items)))
      by (rewrite length_app; lia).
    destruct (IH (all_users ++ items)
                {| net := net w1; calls := calls w1; naps := S (naps w1) |})
      as (offs & Hc & Hcur & Hhd & Hlen & Hn1 & Hn2 & _).
    cbv zeta in Hc, Hn1, Hn2. simpl in Hc, Hn1, Hn2.
    exists (Z.of_nat (List.length all_users) :: offs). cbv zeta. simpl.
    repeat split; try lia; try discriminate.
    + rewrite Hc, Hcalls, <- app_assoc. reflexivity.
    + apply (cursors_weaken _ _ _ (Z.of_nat (List.length (all_users ++ items))));
        [rewrite length_app; lia | exact Hcur].
    + intros o rest Heq. now injection Heq as <- _.
Qed.

(** X5. The search calls of the aggregator for one keyword, in order: all
    of them ask for that keyword with page size 30; the first cursor is 0,
    each later cursor is greater than the one before, and none reaches
    [max_results], so there are at most [max_results] calls, and none at
    all exactly when [max_results] is not positive. A pause follows every
    call but possibly the last, and the loop always comes to an end. *)
Theorem search_cursors_advance api keyword max_results (w : world Net) :
  exists offs,
    calls (snd (search_influencers_by_keyword api keyword max_results w))
    = calls w ++ map (search_request api keyword 30) offs
    /\ cursors 0 max_results offs
    /\ (forall o rest, offs = o :: rest -> o = 0)
    /\ (List.length offs <= Z.to_nat max_results)%nat
    /\ (offs = [] <-> max_results <= 0)
    /\ (naps (snd (search_influencers_by_keyword api keyword max_results w))
        <= naps w + List.length offs)%nat
    /\ (naps w + List.length offs
        <= naps (snd (search_influencers_by_keyword api keyword max_results w)) + 1)%nat
    /\ fst (search_influencers_by_keyword api keyword max_results w) <> Diverge.
Proof.
  destruct (search_loop_cursors api keyword max_results (Z.to_nat max_results) [] w)
    as (offs & Hc & Hcur & Hhd & Hlen & Hn1 & Hn2 & Hsome).
  cbv zeta in Hc, Hn1, Hn2. simpl in Hc, Hcur, Hhd, Hn1, Hn2, Hsome.
  assert (Hsnd : snd (search_influencers_by_keyword api keyword max_results w)
                 = snd (search_loop (Z.to_nat max_results) api keyword max_results [] 0 w)).
  { unfold search_influencers_by_keyword, bind, lift, ret.
    destruct (search_loop _ _ _ _ _ _ w) as [[all_users | e |] w1]; try reflexivity.
    destruct (dict_comprehension user_secUid all_users); reflexivity. }
  exists offs. rewrite Hsnd.
  repeat split; try assumption.
  - intros ->. destruct (Z_le_gt_dec max_results 0) as [Hle | Hgt]; [exact Hle |].
    elim Hsome; [lia | lia | reflexivity].
  - intros Hle. destruct offs; [reflexivity | simpl in Hlen; lia].
  - apply search_influencers_by_keyword_returns.
Qed.

(** ** A bound on the aggregator's result, on a scripted network *)

Lemma scripted_small_pages limit api keyword :
  forall offset (w : world (list response)),
    small_pages limit (net w) ->
    small_pages limit (net (snd (search_users api keyword batch_size offset w)))
    /\ forall users items,
         fst (search_users api keyword batch_size offset w) = Ok users ->
         py_iter users = Ok items ->
         (List.length items <= limit)%nat.
Proof.
  intros offset w Hsmall. unfold search_users, bind, get. simpl.
  destruct (net w) as [| resp rest] eqn:Hnet; simpl.
  - split; [constructor |]. intros users items Hu Hi.
    injection Hu as <-. injection Hi as <-. simpl. lia.
  - inversion Hsmall as [| ? ? Hresp Hrest]; subst.
    destruct resp as [| data | u]; simpl.
    + split; [exact Hrest |]. intros users items Hu Hi.
      injection Hu as <-. injection Hi as <-. simpl. lia.
    + split; [exact Hrest |]. intros users items Hu Hi.
      unfold page_items in Hresp. unfold lift in Hu. simpl in Hu.
      rewrite Hu, Hi in Hresp. exact Hresp.
    + split; [exact Hrest |]. intros users items Hu Hi.
      unfold lift in Hu. simpl in Hu. discriminate.
Qed.

(** ** What the filter returns *)

Lemma analyze_account_built api maxf minv tag user_data inf (w w2 : world Net) :
  analyze_account api maxf minv tag user_data w = (Ok (Some inf), w2) ->
  built_from user_data inf /\ qualifies maxf minv tag inf.
Proof.
  intros Hrun. apply analyze_account_accepts in Hrun
    as (user & uname & sec & fc & videos & avg & w1
        & Hfields & Hfc & _ & _ & _ & Hfloor & Hdata & _).
  apply influencer_data_avgViews in Hdata as (Havg & Hniche & Hname & Hsec & Hcount).
  split.
  - exists user. now rewrite Hname, Hsec, Hcount.
  - unfold qualifies. rewrite Havg, Hniche, Hcount. repeat split; assumption.
Qed.

Lemma filter_loop_output api maxf minv tag users :
  forall qualified out (w w' : world Net),
    filter_loop api maxf minv tag users qualified w = (Ok out, w') ->
    exists kept new,
      out = qualified ++ new
      /\ sublist kept users
      /\ Forall2 built_from kept new
      /\ Forall (qualifies maxf minv tag) new.
Proof.
  induction users as [| user_data rest IH]; simpl; intros qualified out w w' Hrun.
  - injection Hrun as <- _. exists [], [].
    rewrite app_nil_r. repeat split; constructor.
  - apply bind_inv_Ok in Hrun as (found & w1 & Hone & Hrest).
    apply IH in Hrest as (kept & new & Hout & Hsub & Hbuilt & Hq).
    destruct found as [inf |].
    + apply analyze_account_built in Hone as [Hb Hqual].
      exists (user_data :: kept), (inf :: new).
      rewrite Hout, <- app_assoc. repeat split; try reflexivity.
      * now constructor.
      * now constructor.
      * now constructor.
    + exists kept, new. repeat split; try assumption. now constructor.
Qed.

(** X6. What the filter returns, when it returns: the records stand, in
    order, for candidates picked from the list without reordering or
    repetition, each built from its candidate's handle, secondary id and
    follower count; and every record is within the follower ceiling, has
    an average at or above the floor, and carries the given niche. *)
Theorem filter_output_qualifies api users maxf minv tag out (w w' : world Net) :
  filter_influencers api users maxf minv tag w = (Ok out, w') ->
  (exists kept, sublist kept users /\ Forall2 built_from kept out)
  /\ Forall (qualifies maxf minv tag) out.
Proof.
  intros Hrun. apply filter_loop_output in Hrun
    as (kept & new & Hout & Hsub & Hbuilt & Hq).
  simpl in Hout. subst new. split; [now exists kept | exact Hq].
Qed.

(** ** The filter's requests and pauses *)

Lemma get_user_videos_naps api sec count cursor (w : world Net) :
  naps (snd (get_user_videos api sec count cursor w)) = naps w.
Proof.
  unfold get_user_videos, bind. rewrite get_world.
  destruct (fst (http_get _ _)) as [| data | u]; reflexivity.
Qed.

Lemma analyze_videos_naps api minv tag user uname sec fc found (w w1 : world Net) :
  analyze_videos api minv tag user uname sec fc w = (Ok found, w1) ->
  (naps w <= naps w1 <= naps w + 1)%nat
  /\ (found <> None -> naps w1 = S (naps w)).
Proof.
  intros Hrun. pose proof (get_user_videos_naps api sec 30 0 w) as Hnaps.
  unfold analyze_videos in Hrun.
  apply bind_inv_Ok in Hrun as (videos & wv & Hget & Hrun).
  rewrite Hget in Hnaps. simpl in Hnaps.
  destruct (py_truthy videos); simpl in Hrun.
  - apply bind_inv_Ok in Hrun as (avg & wa & Havg & Hrun).
    unfold lift in Havg. injection Havg as _ <-.
    apply bind_inv_Ok in Hrun as (found' & wf & Hfound & Hrun).
    unfold bind, sleep, ret in Hrun. injection Hrun as _ <-. simpl.
    assert (Hwf : wf = wv).
    { destruct (meets_floor avg minv).
      - apply bind_inv_Ok in Hfound as (inf & wi & Hdata & Hret).
        unfold lift in Hdata. injection Hdata as _ <-.
        unfold ret in Hret. now injection Hret as _ <-.
      - unfold ret in Hfound. now injection Hfound as _ <-. }
    subst wf. split; [lia | intros _; lia].
  - unfold ret in Hrun. injection Hrun as <- <-. split; [lia | congruence].
Qed.

Lemma analyze_account_trace api maxf minv tag user_data found (w w1 : world Net) :
  analyze_account api maxf minv tag user_data w = (Ok found, w1) ->
  calls w1 = calls w ++ map (fun sec => videos_request api sec 30 0)
                          (fetch_targets maxf [user_data])
  /\ (naps w <= naps w1)%nat
  /\ (naps w1 <= naps w + List.length (fetch_targets maxf [user_data]))%nat
  /\ (found <> None -> naps w1 = S (naps w)).
Proof.
  intros Hrun. unfold analyze_account in Hrun.
  apply bind_inv_Ok in Hrun as ([[[user uname] sec] fc] & w0 & Hfields & Hrun).
  unfold lift in Hfields. injection Hfields as Hfields <-.
  simpl. rewrite Hfields.
  destruct (fc >? maxf).
  - unfold ret in Hrun. injection Hrun as <- <-. simpl.
    rewrite app_nil_r. repeat split; try lia. congruence.
  - pose proof (analyze_videos_calls api minv tag user uname sec fc w) as Hcalls.
    rewrite Hrun in Hcalls. simpl in Hcalls.
    apply analyze_videos_naps in Hrun as [Hn Hsome]. simpl.
    repeat split; try assumption; lia.
Qed.

Lemma fetch_targets_cons maxf user_data rest :
  fetch_targets maxf (user_data :: rest)
  = fetch_targets maxf [user_data] ++ fetch_targets maxf rest.
Proof.
  simpl. destruct (candidate_fields user_data) as [[[[user uname] sec] fc] | e |];
    try reflexivity.
  now destruct (fc >? maxf).
Qed.

Lemma filter_loop_trace api maxf minv tag users :
  forall qualified out (w w' : world Net),
    filter_loop api maxf minv tag users qualified w = (Ok out, w') ->
    calls w' = calls w ++ map (fun sec => videos_request api sec 30 0)
                            (fetch_targets maxf users)
    /\ (naps w + List.length out <= naps w' + List.length qualified)%nat
    /\ (naps w' <= naps w + List.length (fetch_targets maxf users))%nat.
Proof.
  induction users as [| user_data rest IH]; intros qualified out w w' Hrun.
  - simpl in Hrun. injection Hrun as <- <-. simpl. rewrite app_nil_r.
    repeat split; lia.
  - simpl in Hrun. apply bind_inv_Ok in Hrun as (found & w1 & Hone & Hrest).
    apply analyze_account_trace in Hone as (Hc1 & Hn1 & Hn2 & Hsome).
    apply IH in Hrest as (Hc2 & Hn3 & Hn4).
    rewrite fetch_targets_cons, map_app, length_app.
    split; [rewrite Hc2, Hc1; now rewrite app_assoc |].
    destruct found as [inf |].
    + rewrite length_app in Hn3. simpl in Hn3.
      assert (Hnap : naps w1 = S (naps w)) by (apply Hsome; discriminate).
      split; lia.
    + split; lia.
Qed.

(** X7. When the filter returns, the requests it has added to the log are
    exactly one video-list request, with count 30 and cursor 0, for each
    candidate within the follower ceiling, in list order; it has paused at
    least once per record returned and at most once per request. So it
    returns no more records than it was given candidates to fetch. *)
Theorem filter_fetches_once_per_candidate
  api users maxf minv tag out (w w' : world Net) :
  filter_influencers api users maxf minv tag w = (Ok out, w') ->
  calls w' = calls w ++ map (fun sec => videos_request api sec 30 0)
                          (fetch_targets maxf users)
  /\ (naps w + List.length out <= naps w')%nat
  /\ (naps w' <= naps w + List.length (fetch_targets maxf users))%nat
  /\ (List.length (fetch_targets maxf users) <= List.length users)%nat.
Proof.
  intros Hrun. apply filter_loop_trace in Hrun as (Hc & Hn1 & Hn2).
  simpl in Hn1. repeat split; try assumption; try lia.
  clear. induction users as [| user_data rest IH]; [simpl; lia |].
  rewrite fetch_targets_cons, length_app. simpl.
  destruct (candidate_fields user_data) as [[[[user uname] sec] fc] | e |];
    simpl; try lia.
  destruct (fc >? maxf); simpl; lia.
Qed.

(** ** A candidate that cannot be read *)

Lemma filter_loop_app api maxf minv tag users1 users2 :
  forall qualified (w : world Net),
    filter_loop api maxf minv tag (users1 ++ users2) qualified w =
    bind (filter_loop api maxf minv tag users1 qualified)
         (fun found => filter_loop api maxf minv tag users2 found) w.
Proof.
  induction users1 as [| user_data rest IH]; intros qualified w; simpl.
  - reflexivity.
  - unfold bind in *.
    destruct (analyze_account api maxf minv tag user_data w) as [[found | e |] w1];
      try reflexivity.
    apply IH.
Qed.

(** X8. A candidate whose fields cannot be read (no ["user"], ["uniqueId"]
    or ["secUid"] entry, a follower count that is not a number) ends the
    filter with that exception, in the world reached after the candidates
    before it: what had qualified so far is not returned, and no candidate
    after it is looked at. *)
Theorem filter_aborts_on_unreadable_candidate
  api before bad after maxf minv tag qualified e (w w' : world Net) :
  filter_influencers api before maxf minv tag w = (Ok qualified, w') ->
  candidate_fields bad = Raise e ->
  filter_influencers api (before ++ bad :: after) maxf minv tag w = (Raise e, w').
Proof.
  intros Hbefore Hbad. unfold filter_influencers in *.
  rewrite filter_loop_app. rewrite (bind_Ok _ _ _ _ _ Hbefore). simpl.
  unfold bind, analyze_account, lift. rewrite Hbad. reflexivity.
Qed.

(** ** The exceptions of the pipeline *)

Lemma obind_data_error {A B : Type} (c : outcome A) (k : A -> outcome B) :
  ok_or_data_error c ->
  (forall a, c = Ok a -> ok_or_data_error (k a)) ->
  ok_or_data_error (obind c k).
Proof.
  intros Hc Hk. destruct c as [a | e |]; simpl; [now apply Hk | exact Hc | exact Hc].
Qed.

Lemma bind_data_error {A B : Type} (c : M Net A) (k : A -> M Net B) w :
  ok_or_data_error (fst (c w)) ->
  (forall a w', c w = (Ok a, w') -> ok_or_data_error (fst (k a w'))) ->
  ok_or_data_error (fst (bind c k w)).
Proof.
  intros Hc Hk. unfold bind.
  destruct (c w) as [[a | e |] w'] eqn:Hcw; simpl in *;
    [now apply (Hk a w') | exact Hc | exact Hc].
Qed.

Lemma type_error_is_data_error {A : Type} (o : outcome A) :
  ok_or_type_error o -> ok_or_data_error o.
Proof. destruct o as [a | [] |]; simpl; auto. Qed.

Lemma py_getitem_data_error j k : ok_or_data_error (py_getitem j k).
Proof. destruct j; simpl; try exact I. destruct (assoc k o); exact I. Qed.

Lemma py_getitem_dict j k v : py_getitem j k = Ok v -> exists o, j = JObj o.
Proof. destruct j; simpl; try discriminate. intros _. now exists o. Qed.

Lemma py_int_data_error j : ok_or_data_error (py_int j).
Proof. destruct j; simpl; try exact I. destruct (int_of_str s); exact I. Qed.

Lemma py_iter_data_error j : ok_or_data_error (py_iter j).
Proof. destruct j; exact I. Qed.

Lemma py_len_data_error j : ok_or_data_error (py_len j).
Proof. destruct j; exact I. Qed.

Lemma py_hash_data_error j : ok_or_data_error (py_hash j).
Proof. destruct j; exact I. Qed.

Lemma candidate_fields_data_error user_data :
  ok_or_data_error (candidate_fields user_data).
Proof.
  unfold candidate_fields.
  apply obind_data_error; [apply py_getitem_data_error | intros user _].
  apply obind_data_error; [apply py_getitem_data_error | intros uname Hname].
  apply py_getitem_dict in Hname as (o & ->).
  apply obind_data_error; [apply py_getitem_data_error | intros sec _]. simpl.
  apply obind_data_error; [apply py_int_data_error | intros fc _]. exact I.
Qed.

(** [user.get] is only reached on a dict. *)
Lemma candidate_fields_dict user_data user uname sec fc :
  candidate_fields user_data = Ok (user, uname, sec, fc) -> exists o, user = JObj o.
Proof.
  unfold candidate_fields. intros H.
  apply obind_inv_Ok in H as (user' & _ & H).
  apply obind_inv_Ok in H as (uname' & Hname & H).
  apply py_getitem_dict in Hname as (o & ->).
  repeat (apply obind_inv_Ok in H as (? & _ & H)).
  injection H as <- _ _ _. now exists o.
Qed.

Lemma influencer_data_data_error o uname sec fc avg tag :
  ok_or_data_error (influencer_data (JObj o) uname sec fc avg tag).
Proof.
  unfold influencer_data. simpl.
  apply obind_data_error; [apply py_int_data_error | intros following _].
  apply obind_data_error; [apply py_int_data_error | intros video_count _].
  exact I.
Qed.

Lemma sum_play_counts_from_data_error videos :
  forall acc, ok_or_data_error (sum_play_counts_from acc videos).
Proof.
  induction videos as [| video rest IH]; intros acc; simpl; [exact I |].
  apply obind_data_error; [| intros p _; apply IH].
  unfold play_count.
  apply obind_data_error; [apply py_getitem_data_error | intros stats _].
  apply obind_data_error; [apply py_getitem_data_error | intros plays _].
  apply py_int_data_error.
Qed.

Lemma average_views_data_error videos :
  py_truthy videos = true -> ok_or_data_error (average_views videos).
Proof.
  intros Htruthy. unfold average_views, total_views_of.
  apply obind_data_error.
  - apply obind_data_error; [apply py_iter_data_error | intros items _].
    apply sum_play_counts_from_data_error.
  - intros total _. apply obind_data_error; [apply py_len_data_error |].
    intros n Hn. pose proof (py_truthy_len _ _ Htruthy Hn).
    destruct (py_truediv_cases total (Z.of_nat n) ltac:(lia)) as [[v Hv] | Hv];
      rewrite Hv; exact I.
Qed.

Lemma get_user_videos_data_error api sec count cursor (w : world Net) :
  ok_or_data_error (fst (get_user_videos api sec count cursor w)).
Proof.
  unfold get_user_videos, bind. rewrite get_world.
  destruct (fst (http_get _ _)) as [| data | u]; simpl;
    [exact I | | destruct u; exact I].
  apply type_error_is_data_error, user_videos_body_ok_or_type_error.
Qed.

Lemma search_users_data_error api keyword count offset (w : world Net) :
  ok_or_data_error (fst (search_users api keyword count offset w)).
Proof.
  unfold search_users, bind. rewrite get_world.
  destruct (fst (http_get _ _)) as [| data | u]; simpl;
    [exact I | | destruct u; exact I].
  apply type_error_is_data_error, search_users_body_ok_or_type_error.
Qed.

Lemma analyze_account_data_error api maxf minv tag user_data (w : world Net) :
  ok_or_data_error (fst (analyze_account api maxf minv tag user_data w)).
Proof.
  unfold analyze_account.
  apply bind_data_error; [apply candidate_fields_data_error |].
  intros [[[user uname] sec] fc] w0 Hfields.
  unfold lift in Hfields. injection Hfields as Hfields _.
  apply candidate_fields_dict in Hfields as (o & ->).
  destruct (fc >? maxf); [exact I |].
  unfold analyze_videos.
  apply bind_data_error; [apply get_user_videos_data_error | intros videos w1 _].
  destruct (py_truthy videos) eqn:Htruthy; simpl; [| exact I].
  apply bind_data_error; [now apply average_views_data_error | intros avg w2 _].
  apply bind_data_error.
  - destruct (meets_floor avg minv); [| exact I].
    apply bind_data_error; [apply influencer_data_data_error | intros inf w3 _; exact I].
  - intros found w3 _. exact I.
Qed.

Lemma filter_loop_data_error api maxf minv tag users :
  forall qualified (w : world Net),
    ok_or_data_error (fst (filter_loop api maxf minv tag users qualified w)).
Proof.
  induction users as [| user_data rest IH]; intros qualified w; simpl; [exact I |].
  apply bind_data_error; [apply analyze_account_data_error | intros found w1 _; apply IH].
Qed.

Lemma search_loop_data_error api keyword max_results fuel :
  forall all_users offset (w : world Net),
    max_results <= Z.of_nat fuel + Z.of_nat (List.length all_users) ->
    ok_or_data_error (fst (search_loop fuel api keyword max_results all_users offset w)).
Proof.
  induction fuel as [| fuel IH]; intros all_users offset w Hfuel; simpl.
  - destruct (Z.of_nat (List.length all_users) <? max_results) eqn:E;
      [apply Z.ltb_lt in E; lia | exact I].
  - destruct (Z.of_nat (List.length all_users) <? max_results) eqn:E; [| exact I].
    apply bind_data_error; [apply search_users_data_error | intros users w1 _].
    destruct (py_truthy users) eqn:Htruthy; simpl; [| exact I].
    apply bind_data_error; [apply py_iter_data_error | intros items w2 Hiter].
    unfold lift in Hiter. injection Hiter as Hiter _.
    apply bind_data_error; [apply py_len_data_error | intros n w3 _].
    apply bind_data_error; [exact I | intros [] w4 _].
    apply IH. pose proof (py_truthy_iter _ _ Htruthy Hiter).
    rewrite length_app. lia.
Qed.

Lemma dict_comprehension_from_data_error {A : Type} (keyf : A -> outcome py_key) l :
  (forall x, ok_or_data_error (keyf x)) ->
  forall d, ok_or_data_error (dict_comprehension_from keyf l d).
Proof.
  intros Hkey. induction l as [| x l IH]; intros d; simpl; [exact I |].
  apply obind_data_error; [apply Hkey | intros k _; apply IH].
Qed.

Lemma user_secUid_data_error user : ok_or_data_error (user_secUid user).
Proof.
  unfold user_secUid.
  apply obind_data_error; [apply py_getitem_data_error | intros u _].
  apply obind_data_error; [apply py_getitem_data_error | intros sec _].
  apply py_hash_data_error.
Qed.

Lemma search_influencers_by_keyword_data_error api keyword max_results (w : world Net) :
  ok_or_data_error (fst (search_influencers_by_keyword api keyword max_results w)).
Proof.
  unfold search_influencers_by_keyword.
  apply bind_data_error; [apply search_loop_data_error; simpl; lia |].
  intros all_users w1 _.
  apply bind_data_error; [| intros d w2 _; exact I].
  apply dict_comprehension_from_data_error. apply user_secUid_data_error.
Qed.

Lemma keywords_loop_data_error api maxf minv rpk keywords :
  forall all_influencers (w : world Net),
    ok_or_data_error
      (fst (keywords_loop api maxf minv rpk keywords all_influencers w)).
Proof.
  induction keywords as [| keyword rest IH]; intros all_influencers w; simpl;
    [exact I |].
  apply bind_data_error;
    [apply search_influencers_by_keyword_data_error | intros users w1 _].
  apply bind_data_error; [apply filter_loop_data_error | intros q w2 _; apply IH].
Qed.

(** X9. The aggregator, the filter and the orchestrator each end with a
    value; or with [KeyError], [TypeError] or [ValueError] on data of
    another shape; or with [OverflowError] when an average is beyond the
    floats; or with what [requests] let through. [user.get] is only
    reached on a dict, so no [AttributeError]; there is no division by
    zero; and no loop runs forever. *)
Theorem pipeline_raises_only_data_errors
  api keyword keywords users maxf minv tag ms_token rpk (w : world Net) :
  ok_or_data_error (fst (search_influencers_by_keyword api keyword rpk w))
  /\ ok_or_data_error (fst (filter_influencers api users maxf minv tag w))
  /\ ok_or_data_error
       (fst (find_tiktok_influencers keywords maxf minv ms_token rpk w)).
Proof.
  split; [apply search_influencers_by_keyword_data_error |].
  split; [apply filter_loop_data_error |].
  unfold find_tiktok_influencers.
  apply bind_data_error; [apply keywords_loop_data_error | intros all w1 _].
  apply bind_data_error; [| intros d w2 _; exact I].
  apply dict_comprehension_from_data_error. intros inf. apply py_hash_data_error.
Qed.

(** ** The floor test *)





(** ** The filter over batches *)

Lemma filter_loop_acc api maxf minv tag users :
  forall qualified (w : world Net),
    filter_loop api maxf minv tag users qualified w =
    match filter_loop api maxf minv tag users [] w with
    | (Ok found, w') => (Ok (qualified ++ found), w')
    | (Raise e, w') => (Raise e, w')
    | (Diverge, w') => (Diverge, w')
    end.
Proof.
  induction users as [| user_data rest IH]; intros qualified w; simpl.
  - unfold ret. now rewrite app_nil_r.
  - unfold bind.
    destruct (analyze_account api maxf minv tag user_data w) as [[found | e |] w1];
      try reflexivity.
    rewrite (IH (match found with
                 | Some inf => qualified ++ [inf]
                 | None => qualified
                 end)).
    rewrite (IH (match found with Some inf => [] ++ [inf] | None => [] end)).
    destruct (filter_loop api maxf minv tag rest [] w1) as [[out | e |] w2];
      try reflexivity.
    destruct found as [inf |]; simpl; [now rewrite <- app_assoc | reflexivity].
Qed.

(** X15. Filtering a list in two batches, the second from the world the
    first left behind, gives the same records, in the same order, and the
    same final world as filtering the whole list at once. *)
Theorem filter_splits_over_batches
  api users1 users2 maxf minv tag q1 q2 (w w1 w2 : world Net) :
  filter_influencers api users1 maxf minv tag w = (Ok q1, w1) ->
  filter_influencers api users2 maxf minv tag w1 = (Ok q2, w2) ->
  filter_influencers api (users1 ++ users2) maxf minv tag w = (Ok (q1 ++ q2), w2).
Proof.
  unfold filter_influencers. intros H1 H2.
  rewrite filter_loop_app. rewrite (bind_Ok _ _ _ _ _ H1).
  rewrite filter_loop_acc. now rewrite H2.
Qed.

(** ** Deduplication: positions and failures *)

(** X11. The aggregator's result lists the distinct identifiers in the
    order in which they first appeared among the accumulated records, one
    record per identifier, each taken from the accumulated records;
    deduplication itself touches neither the network nor the log. *)
Theorem secUid_dedup_keeps_first_position
  api keyword max_results all_users out (w w1 w2 : world Net) :
  search_loop (Z.to_nat max_results) api keyword max_results [] 0 w = (Ok all_users, w1) ->
  search_influencers_by_keyword api keyword max_results w = (Ok out, w2) ->
  Forall2 (fun user k => user_secUid user = Ok k) out
    (first_seen (keys_of user_secUid all_users))
  /\ (forall user, In user out -> In user all_users)
  /\ w2 = w1.
Proof.
  intros Hloop Hrun. unfold search_influencers_by_keyword in Hrun.
  rewrite (bind_Ok _ _ _ _ _ Hloop) in Hrun. unfold bind, lift, ret in Hrun.
  destruct (dict_comprehension user_secUid all_users) as [d | e |] eqn:Hd;
    try discriminate.
  injection Hrun as <- <-. split; [| split; [| reflexivity]].
  - now apply dict_comprehension_first_seen.
  - intros user. now apply (dict_comprehension_values_In user_secUid).
Qed.

(** X12. If one of the accumulated records has no identifier to file it
    under (no ["user"] or ["secUid"] entry, or an unhashable one), the
    aggregator ends with the exception of the first such record, after all
    the pages have been fetched; no record is returned. *)
Theorem search_aborts_on_record_without_secUid
  api keyword max_results before bad after e (w w1 : world Net) :
  search_loop (Z.to_nat max_results) api keyword max_results [] 0 w
  = (Ok (before ++ bad :: after), w1) ->
  Forall (fun user => exists k, user_secUid user = Ok k) before ->
  user_secUid bad = Raise e ->
  search_influencers_by_keyword api keyword max_results w = (Raise e, w1).
Proof.
  intros Hloop Hbefore Hbad. unfold search_influencers_by_keyword.
  rewrite (bind_Ok _ _ _ _ _ Hloop). unfold bind, lift, dict_comprehension.
  now rewrite (dict_comprehension_from_first_error user_secUid _ _ _ _ Hbefore Hbad).
Qed.

(** ** The orchestrator's result *)

Lemma keywords_loop_output api maxf minv rpk keywords :
  forall all_influencers out (w w' : world Net),
    keywords_loop api maxf minv rpk keywords all_influencers w = (Ok out, w') ->
    exists new,
      out = all_influencers ++ new
      /\ Forall (fun inf => exists keyword,
                     In keyword keywords /\ qualifies maxf minv keyword inf) new.
Proof.
  induction keywords as [| keyword rest IH]; simpl; intros acc out w w' Hrun.
  - injection Hrun as <- _. exists []. rewrite app_nil_r. split; [reflexivity | constructor].
  - apply bind_inv_Ok in Hrun as (users & w1 & _ & Hrun).
    apply bind_inv_Ok in Hrun as (q & w2 & Hfilter & Hrun).
    apply filter_loop_output in Hfilter as (kept & new1 & Hq & _ & _ & Hqual).
    simpl in Hq. subst new1.
    apply IH in Hrun as (new2 & Hout & Hrest).
    exists (q ++ new2). rewrite Hout, app_assoc. split; [reflexivity |].
    apply Forall_app. split.
    + eapply Forall_impl; [| exact Hqual].
      intros inf Hinf. exists keyword. split; [now left | exact Hinf].
    + eapply Forall_impl; [| exact Hrest].
      intros inf (kw & Hin & Hinf). exists kw. split; [now right | exact Hinf].
Qed.

(** X13. Every record the orchestrator returns is within the follower
    ceiling, has an average at or above the floor, and carries one of the
    given keywords as its niche; and no two records share a username. *)
Theorem orchestrator_output_qualifies
  keywords maxf minv ms_token rpk out (w w' : world Net) :
  find_tiktok_influencers keywords maxf minv ms_token rpk w = (Ok out, w') ->
  Forall (fun inf => exists keyword,
              In keyword keywords /\ qualifies maxf minv keyword inf) out
  /\ forall name,
       (List.length (filter (has_key influencer_key name) out) <= 1)%nat.
Proof.
  intros Hrun. unfold find_tiktok_influencers in Hrun.
  apply bind_inv_Ok in Hrun as (all & w1 & Hall & Hrun).
  apply keywords_loop_output in Hall as (new & Hnew & Hqual). simpl in Hnew. subst new.
  unfold bind, lift, ret in Hrun.
  destruct (dict_comprehension influencer_key all) as [d | e |] eqn:Hd;
    try discriminate.
  injection Hrun as <- _. split.
  - apply Forall_forall. intros inf Hin.
    apply (dict_comprehension_values_In influencer_key _ _ _ Hd) in Hin.
    revert inf Hin. now apply Forall_forall.
  - intros name.
    apply (dict_comprehension_last_write_wins influencer_key) in Hd as [_ Hlast].
    rewrite Hlast. destruct (last_with_key influencer_key name all); simpl; lia.
Qed.

(** X14. If the round for one keyword raises, in its search or in its
    filter, the orchestrator ends with that exception: the records that
    earlier keywords had qualified are not returned, and the keywords
    after it are not run. *)
Theorem orchestrator_aborts_on_failing_keyword
  ks1 keyword ks2 maxf minv ms_token rpk a1 e (w w1 w2 : world Net) :
  keywords_loop (TikTokAPI_init ms_token) maxf minv rpk ks1 [] w = (Ok a1, w1) ->
  keywords_loop (TikTokAPI_init ms_token) maxf minv rpk [keyword] [] w1 = (Raise e, w2) ->
  find_tiktok_influencers (ks1 ++ keyword :: ks2) maxf minv ms_token rpk w
  = (Raise e, w2).
Proof.
  intros Hbefore Hfail. unfold find_tiktok_influencers.
  unfold bind at 1. rewrite keywords_loop_app. rewrite (bind_Ok _ _ _ _ _ Hbefore).
  change (keyword :: ks2) with ([keyword] ++ ks2).
  rewrite keywords_loop_app. unfold bind at 1.
  rewrite keywords_loop_acc, Hfail. reflexivity.
Qed.

End FurtherPipelineFacts.

(** ** Runs of the further properties *)

(** Full pages of 30 accounts under a cap of 50: the 60 accounts returned
    stay below 50 + 30. *)
Lemma search_result_below_cap_plus_page_witness :
  Z.of_nat (List.length (numbered_users 0 60)) <= Z.max 0 (50 - 1 + Z.of_nat 30).
Proof.
  eapply (search_result_below_cap_plus_page (small_pages 30) 30
            (TikTokAPI_init None) "tech"
            (scripted_small_pages 30 (TikTokAPI_init None) "tech")
            50 (fresh full_pages_script)).
  - repeat constructor.
  - reflexivity.
Defined.

Lemma filter_output_qualifies_witness :
  (exists kept,
      sublist kept mixed_candidates
      /\ Forall2 built_from kept [sample_record "b" 200 "tech" (50000 # 1)])
  /\ Forall (qualifies 550000 40000 "tech") [sample_record "b" 200 "tech" (50000 # 1)].
Proof.
  eapply (filter_output_qualifies (TikTokAPI_init None) mixed_candidates
            550000 40000 "tech" [sample_record "b" 200 "tech" (50000 # 1)]
            (fresh scenario_a_server)).
  reflexivity.
Defined.

Lemma filter_fetches_once_per_candidate_witness :
  calls (snd (filter_influencers (TikTokAPI_init None) mixed_candidates
                550000 40000 "tech" (fresh scenario_a_server)))
  = calls (fresh scenario_a_server)
    ++ map (fun sec => videos_request (TikTokAPI_init None) sec 30 0)
         (fetch_targets 550000 mixed_candidates)
  /\ (naps (fresh scenario_a_server)
      + List.length [sample_record "b" 200 "tech" (50000 # 1)]
      <= naps (snd (filter_influencers (TikTokAPI_init None) mixed_candidates
                      550000 40000 "tech" (fresh scenario_a_server))))%nat
  /\ (naps (snd (filter_influencers (TikTokAPI_init None) mixed_candidates
                   550000 40000 "tech" (fresh scenario_a_server)))
      <= naps (fresh scenario_a_server)
         + List.length (fetch_targets 550000 mixed_candidates))%nat
  /\ (List.length (fetch_targets 550000 mixed_candidates)
      <= List.length mixed_candidates)%nat.
Proof.
  apply (filter_fetches_once_per_candidate (TikTokAPI_init None) mixed_candidates
           550000 40000 "tech" [sample_record "b" 200 "tech" (50000 # 1)]
           (fresh scenario_a_server)).
  reflexivity.
Defined.

(** A record without a ["user"] entry after one qualified candidate. *)
Lemma filter_aborts_on_unreadable_candidate_witness :
  filter_influencers (TikTokAPI_init None)
    ([sample_user "b" 200] ++ JObj [] :: [sample_user "a" 100])
    550000 40000 "tech" (fresh scenario_a_server)
  = (Raise (KeyError "user"),
     snd (filter_influencers (TikTokAPI_init None) [sample_user "b" 200]
            550000 40000 "tech" (fresh scenario_a_server))).
Proof.
  apply (filter_aborts_on_unreadable_candidate (TikTokAPI_init None)
           [sample_user "b" 200] (JObj []) [sample_user "a" 100]
           550000 40000 "tech" [sample_record "b" 200 "tech" (50000 # 1)]
           (KeyError "user") (fresh scenario_a_server)).
  - reflexivity.
  - reflexivity.
Defined.

Lemma secUid_dedup_keeps_first_position_witness :
  Forall2 (fun user k => user_secUid user = Ok k)
    [ nth 2 duplicate_page JNull; sample_user "b" 200 ]
    (first_seen (keys_of user_secUid duplicate_page))
  /\ (forall user,
         In user [ nth 2 duplicate_page JNull; sample_user "b" 200 ] ->
         In user duplicate_page)
  /\ snd (search_influencers_by_keyword (TikTokAPI_init None) "tech" 50
            (fresh duplicate_script))
     = snd (search_loop (Z.to_nat 50) (TikTokAPI_init None) "tech" 50 [] 0
              (fresh duplicate_script)).
Proof.
  apply (secUid_dedup_keeps_first_position (TikTokAPI_init None) "tech" 50
           duplicate_page [ nth 2 duplicate_page JNull; sample_user "b" 200 ]
           (fresh duplicate_script)).
  - reflexivity.
  - reflexivity.
Defined.

Lemma search_aborts_on_record_without_secUid_witness :
  search_influencers_by_keyword (TikTokAPI_init None) "tech" 50 (fresh keyless_script)
  = (Raise (KeyError "secUid"),
     snd (search_loop (Z.to_nat 50) (TikTokAPI_init None) "tech" 50 [] 0
            (fresh keyless_script))).
Proof.
  apply (search_aborts_on_record_without_secUid (TikTokAPI_init None) "tech" 50
           [sample_user "a" 100] user_without_secUid [sample_user "b" 200]).
  - reflexivity.
  - constructor; [| constructor]. exists (KStr "sec-a"). reflexivity.
  - reflexivity.
Defined.

(** Scenario B again: one record, qualified under "ai". *)
Lemma orchestrator_output_qualifies_witness :
  Forall (fun inf => exists keyword,
              In keyword ["tech"; "ai"] /\ qualifies 550000 40000 keyword inf)
    [alice_under "ai" (60000 # 1)]
  /\ forall name,
       (List.length (filter (has_key influencer_key name)
                       [alice_under "ai" (60000 # 1)]) <= 1)%nat.
Proof.
  eapply (orchestrator_output_qualifies ["tech"; "ai"] 550000 40000 None 50
            [alice_under "ai" (60000 # 1)] (fresh scenario_b_script)).
  reflexivity.
Defined.

Lemma orchestrator_aborts_on_failing_keyword_witness :
  find_tiktok_influencers (["tech"] ++ "ai" :: ["business"]) 550000 40000 None 50
    (fresh failing_keyword_script)
  = (Raise TypeError,
     snd (find_tiktok_influencers ["tech"; "ai"] 550000 40000 None 50
            (fresh failing_keyword_script))).
Proof.
  eapply (orchestrator_aborts_on_failing_keyword ["tech"] "ai" ["business"]
            550000 40000 None 50 [alice_under "tech" (50000 # 1)] TypeError
            (fresh failing_keyword_script)).
  - reflexivity.
  - reflexivity.
Defined.


(** X17. The floor test is made on the rounded average: with [2^60],
    [2^60] and [2^60 - 1] plays and a floor of [2^60], the exact mean is
    below the floor, yet the quotient rounds up to [2^60] and the
    candidate is accepted, with [2^60] as its average. *)
Theorem candidate_below_floor_accepted_by_rounding :
  Qlt (mean [2 ^ 60; 2 ^ 60; 2 ^ 60 - 1]) (inject_Z (2 ^ 60))
  /\ exists inf w',
       analyze_account (TikTokAPI_init None) 550000 (2 ^ 60) "tech"
         (sample_user "t" 100) (fresh rounding_script) = (Ok (Some inf), w')
       /\ avgViews inf = inject_Z (2 ^ 60).
Proof.
  split; [reflexivity |].
  eexists. eexists. split; [vm_compute; reflexivity | reflexivity].
Qed.

(** The candidates of [mixed_candidates], the first alone and then the
    other two. *)
Lemma filter_splits_over_batches_witness :
  filter_influencers (TikTokAPI_init None)
    ([sample_user "a" 100] ++ [sample_user "big" 600000; sample_user "b" 200])
    550000 40000 "tech" (fresh scenario_a_server)
  = (Ok ([] ++ [sample_record "b" 200 "tech" (50000 # 1)]),
     snd (filter_influencers (TikTokAPI_init None) mixed_candidates
            550000 40000 "tech" (fresh scenario_a_server))).
Proof.
  eapply (filter_splits_over_batches (TikTokAPI_init None)
            [sample_user "a" 100] [sample_user "big" 600000; sample_user "b" 200]
            550000 40000 "tech" [] [sample_record "b" 200 "tech" (50000 # 1)]
            (fresh scenario_a_server)).
  - reflexivity.
  - reflexivity.
Defined.
